(** * Batch-Image-Resizer: crop engine, re-framer, batch export and presets

  A shallow embedding of the TypeScript sources

    - [src/app/types.ts]           (records [SizePreset], [CropRect], [AppState])
    - [src/app/CropEngine.ts]      (camera, pointer and wheel handlers)
    - [src/app/BatchProcessor.ts]  (re-framing and packaging)
    - [src/app/PresetManager.ts]   (preset list)
    - [src/app/UIController.ts]    (application state, export request)

  JavaScript numbers are modelled in exact arithmetic, as rationals [Q]
  compared with [==]; a statement therefore speaks about the values the
  code computes up to floating-point rounding.  Division in [Q] is total
  ([a / 0 == 0]) where JavaScript yields an infinity or NaN, so the two
  agree only when the divisor is not zero: the theorems about the camera
  carry the hypotheses that make every divisor non-zero. *)

From Stdlib Require Import QArith Qminmax Qabs Lqa Lia ZArith String Ascii DecimalString.
From stdpp Require Import base option list strings gmap.

Open Scope Q_scope.

(** ** Numbers *)

(** The comparison [a < b] and [a > b] of two numbers, as a boolean. *)
Definition Qlt_bool (a b : Q) : bool := negb (Qle_bool b a).

(** ** [types.ts] *)

Module SizePreset.
(** [interface SizePreset]; the sizes the interface produces are integers
    ([parseInt], [Math.round], integer literals). *)
Record t := mk {
  id : string;
  width : Z;
  height : Z;
  label : string;
  lockAspectRatio : bool
}.
End SizePreset.

Module CropRect.
(** [interface CropRect], in image space. *)
Record t := mk { x : Q; y : Q; width : Q; height : Q }.
End CropRect.

Module Image.
(** What the code reads of an [HTMLImageElement]. *)
Record t := mk { width : Q; height : Q }.
End Image.

Module Point.
(** The object literals [{ x, y }]. *)
Record t := mk { x : Q; y : Q }.
End Point.

Module DOMRect.
(** What the code reads of [canvas.getBoundingClientRect()]. *)
Record t := mk { left : Q; top : Q; width : Q; height : Q }.
End DOMRect.

Module Canvas.
(** What the code reads of the [HTMLCanvasElement]: its pixel size and
    its bounding client rectangle. *)
Record t := mk { width : Q; height : Q; getBoundingClientRect : DOMRect.t }.
End Canvas.

Inductive Format := jpg | png.

(** ** [CropEngine.ts] *)

Module CropEngine.

Inductive DragMode :=
  move | resize_tl | resize_tr | resize_bl | resize_br | pan.

Record View := mkView { zoom : Q; panX : Q; panY : Q }.

(** The fields of [class CropEngine].  The drawing context takes no part
    in the state; [onCropChange] is modelled by the list of rectangles a
    handler passes to it. *)
Record t := mk {
  canvas : Canvas.t;
  image : option Image.t;
  cropRect : option CropRect.t;
  isDragging : bool;
  dragStart : option Point.t;
  dragMode : option DragMode;
  view : View
}.

(** The object literals [{ clientX, clientY }] and the [WheelEvent]. *)
Record MouseEvent := mkMouse { clientX : Q; clientY : Q }.
Record WheelEvent := mkWheel { pointer : MouseEvent; deltaY : Q }.

Definition set_view (st : t) (v : View) : t :=
  mk (canvas st) (image st) (cropRect st) (isDragging st) (dragStart st)
     (dragMode st) v.

Definition set_cropRect (st : t) (r : CropRect.t) : t :=
  mk (canvas st) (image st) (Some r) (isDragging st) (dragStart st)
     (dragMode st) (view st).

Definition set_dragStart (st : t) (p : option Point.t) : t :=
  mk (canvas st) (image st) (cropRect st) (isDragging st) p
     (dragMode st) (view st).

Definition set_canvas (st : t) (c : Canvas.t) : t :=
  mk c (image st) (cropRect st) (isDragging st) (dragStart st)
     (dragMode st) (view st).

(** [new CropEngine(canvas, onCropChange)] *)
Definition new (c : Canvas.t) : t :=
  mk c None None false None None (mkView 1 0 0).

(** [setImage(img)]: the state and the rectangle given to [onCropChange]. *)
Definition setImage (st : t) (img : Image.t) : t * list CropRect.t :=
  let minDim := Qmin (Image.width img) (Image.height img) in
  let size := minDim * 0.8 in
  let rect := CropRect.mk ((Image.width img - size) / 2)
                          ((Image.height img - size) / 2) size size in
  (mk (canvas st) (Some img) (Some rect) (isDragging st) (dragStart st)
      (dragMode st) (mkView 1 0 0),
   [rect]).

Definition getCropRect (st : t) : option CropRect.t := cropRect st.

(** 1. Mouse (client) -> canvas pixel space *)
Definition getMouseCanvasPos (st : t) (e : MouseEvent) : Point.t :=
  let rect := Canvas.getBoundingClientRect (canvas st) in
  let scaleX := Canvas.width (canvas st) / DOMRect.width rect in
  let scaleY := Canvas.height (canvas st) / DOMRect.height rect in
  Point.mk ((clientX e - DOMRect.left rect) * scaleX)
           ((clientY e - DOMRect.top rect) * scaleY).

Definition getBaseScale (st : t) : Q :=
  match image st with
  | None => 1
  | Some img =>
      let margin := 40 in
      let w := Canvas.width (canvas st) - margin * 2 in
      let h := Canvas.height (canvas st) - margin * 2 in
      if Qle_bool w 0 || Qle_bool h 0 then 1
      else Qmin (w / Image.width img) (h / Image.height img)
  end.

(** 2. Image space -> canvas pixel space *)
Definition imageToCanvas (st : t) (imgX imgY : Q) : Point.t :=
  match image st with
  | None => Point.mk 0 0
  | Some img =>
      let baseScale := getBaseScale st in
      let totalScale := baseScale * zoom (view st) in
      let cx := Canvas.width (canvas st) / 2 in
      let cy := Canvas.height (canvas st) / 2 in
      let imgCx := Image.width img / 2 in
      let imgCy := Image.height img / 2 in
      Point.mk (cx + panX (view st) + (imgX - imgCx) * totalScale)
               (cy + panY (view st) + (imgY - imgCy) * totalScale)
  end.

(** 3. Canvas pixel space -> image space *)
Definition canvasToImage (st : t) (canvasX canvasY : Q) : Point.t :=
  match image st with
  | None => Point.mk 0 0
  | Some img =>
      let baseScale := getBaseScale st in
      let totalScale := baseScale * zoom (view st) in
      let cx := Canvas.width (canvas st) / 2 in
      let cy := Canvas.height (canvas st) / 2 in
      let imgCx := Image.width img / 2 in
      let imgCy := Image.height img / 2 in
      Point.mk (imgCx + (canvasX - cx - panX (view st)) / totalScale)
               (imgCy + (canvasY - cy - panY (view st)) / totalScale)
  end.

Definition handleWheel (st : t) (e : WheelEvent) : t :=
  match image st with
  | None => st
  | Some img =>
      let zoomIntensity := 0.1 in
      let delta :=
        if Qlt_bool 0 (deltaY e) then - zoomIntensity else zoomIntensity in
      let newZoom := Qmax 0.1 (Qmin 10 (zoom (view st) * (1 + delta))) in
      (* zoom towards the mouse pointer *)
      let mouse := getMouseCanvasPos st (pointer e) in
      let imgPosBefore := canvasToImage st (Point.x mouse) (Point.y mouse) in
      let st1 :=
        set_view st (mkView newZoom (panX (view st)) (panY (view st))) in
      let baseScale := getBaseScale st1 in
      let totalScale := baseScale * zoom (view st1) in
      let cx := Canvas.width (canvas st1) / 2 in
      let cy := Canvas.height (canvas st1) / 2 in
      let imgCx := Image.width img / 2 in
      let imgCy := Image.height img / 2 in
      let panX' :=
        Point.x mouse - cx - (Point.x imgPosBefore - imgCx) * totalScale in
      let panY' :=
        Point.y mouse - cy - (Point.y imgPosBefore - imgCy) * totalScale in
      set_view st1 (mkView newZoom panX' panY')
  end.

Definition handleMouseDown (st : t) (e : MouseEvent) : t :=
  match image st, cropRect st with
  | Some img, Some r =>
      let mouse := getMouseCanvasPos st e in
      (* check handles first *)
      let cropCanvas := imageToCanvas st (CropRect.x r) (CropRect.y r) in
      let cropBottomRight :=
        imageToCanvas st (CropRect.x r + CropRect.width r)
                         (CropRect.y r + CropRect.height r) in
      let cropW := Point.x cropBottomRight - Point.x cropCanvas in
      let cropH := Point.y cropBottomRight - Point.y cropCanvas in
      let handleSize := 12 in
      let hit (hx hy : Q) :=
        Qlt_bool (Qabs (Point.x mouse - hx)) handleSize
        && Qlt_bool (Qabs (Point.y mouse - hy)) handleSize in
      let mode :=
        if hit (Point.x cropCanvas) (Point.y cropCanvas) then resize_tl
        else if hit (Point.x cropCanvas + cropW) (Point.y cropCanvas)
        then resize_tr
        else if hit (Point.x cropCanvas) (Point.y cropCanvas + cropH)
        then resize_bl
        else if hit (Point.x cropCanvas + cropW) (Point.y cropCanvas + cropH)
        then resize_br
        else if Qlt_bool (Point.x cropCanvas) (Point.x mouse)
                && Qlt_bool (Point.x mouse) (Point.x cropCanvas + cropW)
                && Qlt_bool (Point.y cropCanvas) (Point.y mouse)
                && Qlt_bool (Point.y mouse) (Point.y cropCanvas + cropH)
        then move
        else pan in
      mk (canvas st) (image st) (cropRect st) true
         (Some (Point.mk (Point.x mouse) (Point.y mouse))) (Some mode)
         (view st)
  | _, _ => st
  end.

(** The [move] branch of [handleMouseMove]: add the delta, then clamp. *)
Definition moveRect (img : Image.t) (r : CropRect.t) (dx dy : Q)
  : CropRect.t :=
  let x1 := CropRect.x r + dx in
  let y1 := CropRect.y r + dy in
  let x2 := Qmax 0 (Qmin (Image.width img - CropRect.width r) x1) in
  let y2 := Qmax 0 (Qmin (Image.height img - CropRect.height r) y1) in
  CropRect.mk x2 y2 (CropRect.width r) (CropRect.height r).

(** The resize branches of [handleMouseMove]: the new rectangle from the
    pointer (in image space) and the fixed opposite corner.  The two
    other modes do not reach this code and leave the rectangle alone. *)
Definition resizeRect (mode : DragMode) (r : CropRect.t)
    (currentImg : Point.t) : CropRect.t :=
  match mode with
  | resize_br =>
      let fixedX := CropRect.x r in
      let fixedY := CropRect.y r in
      CropRect.mk (CropRect.x r) (CropRect.y r)
                  (Qmax 10 (Point.x currentImg - fixedX))
                  (Qmax 10 (Point.y currentImg - fixedY))
  | resize_tl =>
      let fixedX := CropRect.x r + CropRect.width r in
      let fixedY := CropRect.y r + CropRect.height r in
      let newX := Qmin (fixedX - 10) (Point.x currentImg) in
      let newY := Qmin (fixedY - 10) (Point.y currentImg) in
      CropRect.mk newX newY (fixedX - newX) (fixedY - newY)
  | resize_tr =>
      let fixedX := CropRect.x r in
      let fixedY := CropRect.y r + CropRect.height r in
      let newY := Qmin (fixedY - 10) (Point.y currentImg) in
      CropRect.mk (CropRect.x r) newY
                  (Qmax 10 (Point.x currentImg - fixedX))
                  (fixedY - newY)
  | resize_bl =>
      let fixedX := CropRect.x r + CropRect.width r in
      let fixedY := CropRect.y r in
      let newX := Qmin (fixedX - 10) (Point.x currentImg) in
      CropRect.mk newX (CropRect.y r)
                  (fixedX - newX)
                  (Qmax 10 (Point.y currentImg - fixedY))
  | move | pan => r
  end.

(** [handleMouseMove(e)]: the state and the rectangles given to
    [onCropChange]. *)
Definition handleMouseMove (st : t) (e : MouseEvent)
  : t * list CropRect.t :=
  match isDragging st, image st, cropRect st, dragMode st, dragStart st with
  | true, Some img, Some r, Some mode, Some ds =>
      let mouse := getMouseCanvasPos st e in
      match mode with
      | pan =>
          let dx := Point.x mouse - Point.x ds in
          let dy := Point.y mouse - Point.y ds in
          let v := mkView (zoom (view st)) (panX (view st) + dx)
                          (panY (view st) + dy) in
          (set_dragStart (set_view st v)
             (Some (Point.mk (Point.x mouse) (Point.y mouse))), [])
      | _ =>
          let currentImg :=
            canvasToImage st (Point.x mouse) (Point.y mouse) in
          let startImg := canvasToImage st (Point.x ds) (Point.y ds) in
          let dx := Point.x currentImg - Point.x startImg in
          let dy := Point.y currentImg - Point.y startImg in
          match mode with
          | move =>
              let r' := moveRect img r dx dy in
              (set_dragStart (set_cropRect st r')
                 (Some (Point.mk (Point.x mouse) (Point.y mouse))), [r'])
          | _ =>
              let r' := resizeRect mode r currentImg in
              (set_cropRect st r', [r'])
          end
      end
  | _, _, _, _, _ => (st, [])
  end.

Definition handleMouseUp (st : t) : t :=
  mk (canvas st) (image st) (cropRect st) false None None (view st).

(** *** Predicates of the specification *)

(** The invariants of the crop rectangle: inside the image, and at least
    [MIN_SIZE = 10] wide and high. *)
Definition crop_inv (img : Image.t) (r : CropRect.t) : Prop :=
  0 <= CropRect.x r /\ 0 <= CropRect.y r /\
  CropRect.x r + CropRect.width r <= Image.width img /\
  CropRect.y r + CropRect.height r <= Image.height img /\
  10 <= CropRect.width r /\ 10 <= CropRect.height r.

(** No division of the camera code has a zero divisor: the image and the
    bounding rectangle of the canvas have positive sizes and the zoom is
    positive. *)
Definition finite_geometry (st : t) (img : Image.t) : Prop :=
  image st = Some img /\
  0 < Image.width img /\ 0 < Image.height img /\
  0 < DOMRect.width (Canvas.getBoundingClientRect (canvas st)) /\
  0 < DOMRect.height (Canvas.getBoundingClientRect (canvas st)) /\
  0 < zoom (view st).

Definition resizing (mode : DragMode) : Prop :=
  mode = resize_tl \/ mode = resize_tr \/ mode = resize_bl \/ mode = resize_br.

(** The engine is in the middle of a pointer gesture of the given mode on
    the crop rectangle [r]: the guard of [handleMouseMove] passes. *)
Definition gesture (st : t) (r : CropRect.t) (mode : DragMode) : Prop :=
  isDragging st = true /\ cropRect st = Some r /\
  dragMode st = Some mode /\ dragStart st <> None.

(** The pointer of a mouse event, in image space. *)
Definition pointerInImage (st : t) (e : MouseEvent) : Point.t :=
  let mouse := getMouseCanvasPos st e in
  canvasToImage st (Point.x mouse) (Point.y mouse).

Definition insideImage (img : Image.t) (p : Point.t) : Prop :=
  0 <= Point.x p <= Image.width img /\ 0 <= Point.y p <= Image.height img.

(** The property of the specification: a pointer move handled in the
    moving state or in one of the four resizing states re-establishes the
    invariants of the crop rectangle. *)
Definition pointerMove_preserves_invariants : Prop :=
  forall (st : t) (img : Image.t) (r r' : CropRect.t) (mode : DragMode)
         (e : MouseEvent),
    finite_geometry st img -> gesture st r mode ->
    mode = move \/ resizing mode ->
    crop_inv img r ->
    cropRect (fst (handleMouseMove st e)) = Some r' ->
    crop_inv img r'.

End CropEngine.

(** ** [BatchProcessor.ts] *)

Module BatchProcessor.

(** How a promise settles. *)
Inductive Settled (A : Type) :=
| Fulfilled (a : A)
| Rejected.
Arguments Fulfilled {A} a.
Arguments Rejected {A}.

Definition is_rejected {A : Type} (s : Settled A) : bool :=
  match s with Rejected => true | Fulfilled _ => false end.

(** "Smart Auto-Fit": the source rectangle [generateImage] hands to
    [drawImage], lines 45 to 84 of the function. *)
Definition sourceRect (image : Image.t) (userCrop : CropRect.t)
    (preset : SizePreset.t) : CropRect.t :=
  (* 1. preserve the centre of userCrop *)
  let cx := CropRect.x userCrop + CropRect.width userCrop / 2 in
  let cy := CropRect.y userCrop + CropRect.height userCrop / 2 in
  let targetRatio :=
    inject_Z (SizePreset.width preset) / inject_Z (SizePreset.height preset) in
  let userRatio := CropRect.width userCrop / CropRect.height userCrop in
  (* expand the user crop to the target aspect ratio *)
  let wider := Qlt_bool userRatio targetRatio in
  let sourceH0 :=
    if wider then CropRect.height userCrop
    else CropRect.width userCrop / targetRatio in
  let sourceW0 :=
    if wider then CropRect.height userCrop * targetRatio
    else CropRect.width userCrop in
  (* do not exceed the image bounds (scale down if needed) *)
  let overW := Qlt_bool (Image.width image) sourceW0 in
  let sourceW1 := if overW then Image.width image else sourceW0 in
  let sourceH1 := if overW then Image.width image / targetRatio else sourceH0 in
  let overH := Qlt_bool (Image.height image) sourceH1 in
  let sourceH := if overH then Image.height image else sourceH1 in
  let sourceW := if overH then Image.height image * targetRatio else sourceW1 in
  (* centre the new crop rect *)
  let sourceX0 := cx - sourceW / 2 in
  let sourceY0 := cy - sourceH / 2 in
  (* clamp to the image bounds (shift if needed) *)
  let sourceX1 := if Qlt_bool sourceX0 0 then 0 else sourceX0 in
  let sourceY1 := if Qlt_bool sourceY0 0 then 0 else sourceY0 in
  let sourceX :=
    if Qlt_bool (Image.width image) (sourceX1 + sourceW)
    then Image.width image - sourceW else sourceX1 in
  let sourceY :=
    if Qlt_bool (Image.height image) (sourceY1 + sourceH)
    then Image.height image - sourceH else sourceY1 in
  CropRect.mk sourceX sourceY sourceW sourceH.

(** The characters [\s] matches, among the code units below 256. *)
Definition is_whitespace (c : ascii) : bool :=
  let n := nat_of_ascii c in
  (Nat.leb 9 n && Nat.leb n 13) || Nat.eqb n 32 || Nat.eqb n 160.

(** [label.replace(/\s+/g, '_')]: every maximal run of whitespace becomes
    one underscore; [in_run] tells that the previous character was
    whitespace. *)
Fixpoint replace_whitespace (in_run : bool) (s : string) : string :=
  match s with
  | EmptyString => EmptyString
  | String c s' =>
      if is_whitespace c
      then (if in_run then replace_whitespace true s'
            else String "_" (replace_whitespace true s'))
      else String c (replace_whitespace false s')
  end.

(** An integer in a template literal. *)
Definition string_of_Z (n : Z) : string := NilZero.string_of_int (Z.to_int n).

Definition ext_of (format : Format) : string :=
  match format with jpg => "jpg" | png => "png" end.

Definition filename (preset : SizePreset.t) (format : Format) : string :=
  replace_whitespace false (SizePreset.label preset) +:+ "_"
  +:+ string_of_Z (SizePreset.width preset) +:+ "x"
  +:+ string_of_Z (SizePreset.height preset) +:+ "." +:+ ext_of format.

(** The path of a file added through [zip.folder('resized_images')]. *)
Definition path (preset : SizePreset.t) (format : Format) : string :=
  "resized_images/" +:+ filename preset format.

Section Browser.

(** The encoded image data. *)
Variable Blob : Type.

(** Whether [canvas.getContext('2d')] returns a context for the canvas
    created for a preset. *)
Variable getContext : SizePreset.t -> bool.

(** [ctx.drawImage] of the source rectangle onto the canvas of the preset
    followed by [canvas.toBlob] with the format and the quality: either an
    exception, or the callback's argument, a blob or [null]. *)
Variable drawAndEncode :
  Image.t -> CropRect.t -> SizePreset.t -> Format -> Q -> Settled (option Blob).

(** The order in which the pending [toBlob] callbacks resume the tasks of
    [process]; the code does not fix it. *)
Variable schedule :
  list (SizePreset.t * Settled (option Blob)) ->
  list (SizePreset.t * Settled (option Blob)).

Definition generateImage (image : Image.t) (userCrop : CropRect.t)
    (preset : SizePreset.t) (format : Format) (quality : Q)
  : Settled (option Blob) :=
  if getContext preset
  then drawAndEncode image (sourceRect image userCrop preset) preset format
         quality
  else Fulfilled None.

(** The continuation of one task of [presets.map] once its [generateImage]
    has settled: a blob is added to the folder under its file name. *)
Definition addFile (format : Format) (zip : gmap string Blob)
    (task : SizePreset.t * Settled (option Blob)) : gmap string Blob :=
  match task with
  | (preset, Fulfilled (Some blob)) => <[path preset format := blob]> zip
  | _ => zip
  end.

(** [process]: fulfilled with the files of the archive handed to [saveAs],
    or rejected, when [Promise.all] rejects, before any archive is
    generated. *)
Definition process (image : Image.t) (userCrop : CropRect.t)
    (presets : list SizePreset.t) (format : Format) (quality : Q)
  : Settled (gmap string Blob) :=
  let promises :=
    map (fun preset =>
           (preset, generateImage image userCrop preset format quality))
        presets in
  let zip := foldl (addFile format) ∅ (schedule promises) in
  if existsb (fun task => is_rejected (snd task)) promises
  then Rejected
  else Fulfilled zip.

(** The property of the specification: the batch completes whatever the
    single generations do, and the archive includes the output of every
    preset whose generation produced one.  (The code has no failure
    entries that the property could mention.) *)
Definition batch_isolates_failures (image : Image.t) (userCrop : CropRect.t)
    (presets : list SizePreset.t) (format : Format) (quality : Q) : Prop :=
  exists zip : gmap string Blob,
    process image userCrop presets format quality = Fulfilled zip /\
    forall (preset : SizePreset.t) (blob : Blob),
      preset ∈ presets ->
      generateImage image userCrop preset format quality
        = Fulfilled (Some blob) ->
      exists key : string, zip !! key = Some blob.

End Browser.

End BatchProcessor.

(** ** [PresetManager.ts] *)

Module PresetManager.

(** [Partial<SizePreset>]: [None] for a key the object does not have. *)
Record Partial := mkPartial {
  id : option string;
  width : option Z;
  height : option Z;
  label : option string;
  lockAspectRatio : option bool
}.

(** The item [image-resizer-presets] of [localStorage], when present: the
    list its text encodes, or a text [JSON.parse] rejects. *)
Inductive Stored :=
| Parsed (l : list SizePreset.t)
| Unparsable.

(** The list of the manager, the stored item, and the lists passed to
    [onChange], the latest first. *)
Record t := mk {
  presets : list SizePreset.t;
  storage : option Stored;
  notified : list (list SizePreset.t)
}.

Definition getDefaultPresets : list SizePreset.t :=
  [ SizePreset.mk "1" 1080 1080 "Instagram Square" true;
    SizePreset.mk "2" 1080 1350 "Instagram Portrait" true;
    SizePreset.mk "3" 1200 630 "Facebook/Twitter" true;
    SizePreset.mk "4" 1920 1080 "Full HD" true ].

(** [new PresetManager(onChange)], which runs [loadPresets]. *)
Definition new (stored : option Stored) : t :=
  let l :=
    match stored with
    | Some (Parsed l) => l
    | Some Unparsable => getDefaultPresets
    | None => getDefaultPresets
    end in
  mk l stored [l].

Definition getPresets (m : t) : list SizePreset.t := presets m.

Definition savePresets (m : t) (silent : bool) : t :=
  mk (presets m) (Some (Parsed (presets m)))
     (if silent then notified m else presets m :: notified m).

Definition addPreset (m : t) (preset : SizePreset.t) : t :=
  savePresets (mk (presets m ++ [preset]) (storage m) (notified m)) false.

Definition removePreset (m : t) (id : string) : t :=
  savePresets
    (mk (List.filter (fun p => negb (String.eqb (SizePreset.id p) id)) (presets m))
        (storage m) (notified m))
    false.

(** The object spread [{ ...p, ...updates }]. *)
Definition spread (p : SizePreset.t) (updates : Partial) : SizePreset.t :=
  SizePreset.mk
    (default (SizePreset.id p) (id updates))
    (default (SizePreset.width p) (width updates))
    (default (SizePreset.height p) (height updates))
    (default (SizePreset.label p) (label updates))
    (default (SizePreset.lockAspectRatio p) (lockAspectRatio updates)).

(** What merging means for one field: the listed value when the update
    lists the field, the old value otherwise. *)
Definition field_merged {A : Type} (old : A) (update : option A) (new : A)
  : Prop :=
  match update with
  | Some v => new = v
  | None => new = old
  end.

Definition merged (p : SizePreset.t) (updates : Partial) (q : SizePreset.t)
  : Prop :=
  field_merged (SizePreset.id p) (id updates) (SizePreset.id q) /\
  field_merged (SizePreset.width p) (width updates) (SizePreset.width q) /\
  field_merged (SizePreset.height p) (height updates) (SizePreset.height q) /\
  field_merged (SizePreset.label p) (label updates) (SizePreset.label q) /\
  field_merged (SizePreset.lockAspectRatio p) (lockAspectRatio updates)
    (SizePreset.lockAspectRatio q).

(** The arrow function [p => p.id === id ? { ...p, ...updates } : p]. *)
Definition update_one (id : string) (updates : Partial) (p : SizePreset.t)
  : SizePreset.t :=
  if String.eqb (SizePreset.id p) id then spread p updates else p.

Definition updatePreset (m : t) (id : string) (updates : Partial)
    (silent : bool) : t :=
  savePresets
    (mk (map (update_one id updates) (presets m)) (storage m) (notified m))
    silent.

End PresetManager.

(** ** [UIController.ts] *)

Module File.
(** What the loader reads of a [File]. *)
Record t := mk { type : string }.
End File.

Module AppState.
(** [interface AppState] of [types.ts]. *)
Record t := mk {
  originalImage : option Image.t;
  originalFile : option File.t;
  cropRect : option CropRect.t;
  presets : list SizePreset.t;
  isProcessing : bool;
  outputFormat : Format;
  jpgQuality : Q
}.
End AppState.

Module UIController.

(** The fields of [class UIController] that carry state.  [canvasEl] and
    the canvas of the crop engine are one object, and so are the crop
    rectangle of the application state and that of the engine: every
    handler below updates both copies together. *)
Record t := mk {
  appState : AppState.t;
  cropEngine : option CropEngine.t;
  presetManager : PresetManager.t;
  canvasEl : Canvas.t
}.

(** The events the controller and its collaborators listen to. *)
Inductive Event :=
| ImageLoaded (img : Image.t) (file : File.t) (clientWidth clientHeight : Q)
| WindowResize (clientWidth clientHeight : Q)
| Layout (rect : DOMRect.t)
| MouseDown (e : CropEngine.MouseEvent)
| MouseMove (e : CropEngine.MouseEvent)
| MouseUp
| Wheel (e : CropEngine.WheelEvent)
| AddPresetClick (now : string)
| DeleteClick (id : string)
| InputChange (id : string) (updates : PresetManager.Partial)
| FormatClick (format : Format)
| QualityInput (val : Z).

Definition set_cropRect (a : AppState.t) (r : option CropRect.t) : AppState.t :=
  AppState.mk (AppState.originalImage a) (AppState.originalFile a) r
    (AppState.presets a) (AppState.isProcessing a) (AppState.outputFormat a)
    (AppState.jpgQuality a).

Definition set_presets (a : AppState.t) (l : list SizePreset.t) : AppState.t :=
  AppState.mk (AppState.originalImage a) (AppState.originalFile a)
    (AppState.cropRect a) l (AppState.isProcessing a)
    (AppState.outputFormat a) (AppState.jpgQuality a).

(** The callback given to [new CropEngine]: [appState.cropRect = rect], for
    each rectangle the engine reports. *)
Definition onCropChange (a : AppState.t) (rects : list CropRect.t)
  : AppState.t :=
  foldl (fun a r => set_cropRect a (Some r)) a rects.

(** [new UIController(container)] followed by [init()]: the presets come
    from the preset manager, through [onPresetsChanged]. *)
Definition new (stored : option PresetManager.Stored) (canvas : Canvas.t) : t :=
  let pm := PresetManager.new stored in
  mk (AppState.mk None None None (PresetManager.getPresets pm) false jpg 0.9)
     None pm canvas.

Definition resize_canvas (c : Canvas.t) (w h : Q) : Canvas.t :=
  Canvas.mk w h (Canvas.getBoundingClientRect c).

Definition onImageLoaded (s : t) (img : Image.t) (file : File.t)
    (clientWidth clientHeight : Q) : t :=
  let a := appState s in
  let a1 :=
    AppState.mk (Some img) (Some file) (AppState.cropRect a)
      (AppState.presets a) (AppState.isProcessing a) (AppState.outputFormat a)
      (AppState.jpgQuality a) in
  (* init the crop engine *)
  let engine :=
    match cropEngine s with
    | Some e => e
    | None => CropEngine.new (canvasEl s)
    end in
  let canvas := resize_canvas (canvasEl s) clientWidth clientHeight in
  let '(engine', rects) :=
    CropEngine.setImage (CropEngine.set_canvas engine canvas) img in
  mk (onCropChange a1 rects) (Some engine') (presetManager s) canvas.

(** One handled event. *)
Definition step (s : t) (ev : Event) : t :=
  match ev with
  | ImageLoaded img file w h => onImageLoaded s img file w h
  | WindowResize w h =>
      match AppState.originalImage (appState s), cropEngine s with
      | Some _, Some e =>
          let canvas := resize_canvas (canvasEl s) w h in
          mk (appState s) (Some (CropEngine.set_canvas e canvas))
             (presetManager s) canvas
      | _, _ => s
      end
  | Layout rect =>
      let canvas :=
        Canvas.mk (Canvas.width (canvasEl s)) (Canvas.height (canvasEl s))
          rect in
      mk (appState s)
         (option_map (fun e => CropEngine.set_canvas e canvas) (cropEngine s))
         (presetManager s) canvas
  | MouseDown e =>
      mk (appState s)
         (option_map (fun en => CropEngine.handleMouseDown en e) (cropEngine s))
         (presetManager s) (canvasEl s)
  | MouseMove e =>
      match cropEngine s with
      | Some en =>
          let '(en', rects) := CropEngine.handleMouseMove en e in
          mk (onCropChange (appState s) rects) (Some en') (presetManager s)
             (canvasEl s)
      | None => s
      end
  | MouseUp =>
      mk (appState s) (option_map CropEngine.handleMouseUp (cropEngine s))
         (presetManager s) (canvasEl s)
  | Wheel e =>
      mk (appState s)
         (option_map (fun en => CropEngine.handleWheel en e) (cropEngine s))
         (presetManager s) (canvasEl s)
  | AddPresetClick now =>
      let pm :=
        PresetManager.addPreset (presetManager s)
          (SizePreset.mk now 1080 1080 "New Size" true) in
      mk (set_presets (appState s) (PresetManager.getPresets pm))
         (cropEngine s) pm (canvasEl s)
  | DeleteClick id =>
      let pm := PresetManager.removePreset (presetManager s) id in
      mk (set_presets (appState s) (PresetManager.getPresets pm))
         (cropEngine s) pm (canvasEl s)
  | InputChange id updates =>
      let pm := PresetManager.updatePreset (presetManager s) id updates true in
      mk (set_presets (appState s) (PresetManager.getPresets pm))
         (cropEngine s) pm (canvasEl s)
  | FormatClick format =>
      let a := appState s in
      mk (AppState.mk (AppState.originalImage a) (AppState.originalFile a)
            (AppState.cropRect a) (AppState.presets a)
            (AppState.isProcessing a) format (AppState.jpgQuality a))
         (cropEngine s) (presetManager s) (canvasEl s)
  | QualityInput val =>
      let a := appState s in
      mk (AppState.mk (AppState.originalImage a) (AppState.originalFile a)
            (AppState.cropRect a) (AppState.presets a)
            (AppState.isProcessing a) (AppState.outputFormat a)
            (inject_Z val / 100))
         (cropEngine s) (presetManager s) (canvasEl s)
  end.

(** The state after a sequence of events. *)
Definition run (s : t) (evs : list Event) : t := foldl step s evs.

(** What holds of every state the controller reaches: the crop engine
    exists only once an image was loaded, and an image is loaded exactly
    when a crop rectangle is defined. *)
Definition consistent (s : t) : Prop :=
  (is_Some (cropEngine s) -> is_Some (AppState.originalImage (appState s))) /\
  (is_Some (AppState.originalImage (appState s)) <->
   is_Some (AppState.cropRect (appState s))).

Section Browser.

Variable Blob : Type.
Variable getContext : SizePreset.t -> bool.
Variable drawAndEncode :
  Image.t -> CropRect.t -> SizePreset.t -> Format -> Q ->
  BatchProcessor.Settled (option Blob).
Variable schedule :
  list (SizePreset.t * BatchProcessor.Settled (option Blob)) ->
  list (SizePreset.t * BatchProcessor.Settled (option Blob)).

(** What [handleDownload] does that can be observed, in order. *)
Inductive Effect :=
| Alert (message : string)
| ButtonBusy
| Process (image : Image.t) (userCrop : CropRect.t)
    (presets : list SizePreset.t) (format : Format) (quality : Q)
    (result : BatchProcessor.Settled (gmap string Blob))
| ConsoleError
| ButtonRestored.

Definition handleDownload (s : t) : list Effect :=
  let a := appState s in
  match AppState.originalImage a, AppState.cropRect a with
  | Some image, Some crop =>
      let result :=
        BatchProcessor.process Blob getContext drawAndEncode schedule image
          crop (AppState.presets a) (AppState.outputFormat a)
          (AppState.jpgQuality a) in
      [ButtonBusy;
       Process image crop (AppState.presets a) (AppState.outputFormat a)
         (AppState.jpgQuality a) result]
      ++ (if BatchProcessor.is_rejected result
          then [ConsoleError; Alert "Error processing images"]
          else [])
      ++ [ButtonRestored]
  | _, _ => [Alert "Please upload an image first."]
  end.

Definition is_process (e : Effect) : bool :=
  match e with Process _ _ _ _ _ _ => true | _ => false end.

(** The export request is refused: nothing but the alert happens. *)
Definition refused (trace : list Effect) : Prop :=
  trace = [Alert "Please upload an image first."].

End Browser.

End UIController.

(** ** States of the controller *)

Module Reachable.

(** The presets of the application state are those of the preset
    manager. *)
Definition presets_in_sync (s : UIController.t) : Prop :=
  AppState.presets (UIController.appState s)
  = PresetManager.getPresets (UIController.presetManager s).

(** The application state and the crop engine hold the same image and the
    same crop rectangle, and the engine draws on the canvas of the
    controller; without an engine there is neither image nor crop. *)
Definition engine_in_sync (s : UIController.t) : Prop :=
  match UIController.cropEngine s with
  | Some en =>
      CropEngine.cropRect en = AppState.cropRect (UIController.appState s) /\
      CropEngine.image en = AppState.originalImage (UIController.appState s) /\
      CropEngine.canvas en = UIController.canvasEl s
  | None =>
      AppState.originalImage (UIController.appState s) = None /\
      AppState.cropRect (UIController.appState s) = None
  end.

(** The zoom of the camera lies within [0.1, 10]. *)
Definition zoom_in_range (s : UIController.t) : Prop :=
  forall en, UIController.cropEngine s = Some en ->
             0.1 <= CropEngine.zoom (CropEngine.view en) <= 10.

End Reachable.

(** ** [CropEngine.ts]: drawing *)

Module Render.

(** The calls [render] makes on the drawing context, and the properties it
    sets, in order. *)
Inductive Call :=
| fillStyle (style : string)
| fillRect (x y w h : Q)
| font (value : string)
| textAlign (value : string)
| fillText (text : string) (x y : Q)
| drawImage (img : Image.t) (x y w h : Q)
| beginPath
| rect (x y w h : Q)
| clip (rule : string)
| fill
| resetTransform
| strokeStyle (style : string)
| lineWidth (value : Q)
| strokeRect (x y w h : Q)
| moveTo (x y : Q)
| lineTo (x y : Q)
| stroke.

(** [render()]; [ctx] tells whether the engine has a drawing context. *)
Definition render (ctx : bool) (st : CropEngine.t) : list Call :=
  if negb ctx then []
  else
    let canvasW := Canvas.width (CropEngine.canvas st) in
    let canvasH := Canvas.height (CropEngine.canvas st) in
    (* clear *)
    [fillStyle "#111827"; fillRect 0 0 canvasW canvasH] ++
    match CropEngine.image st with
    | None =>
        [fillStyle "#9ca3af"; font "16px sans-serif"; textAlign "center";
         fillText "No image loaded" (canvasW / 2) (canvasH / 2)]
    | Some img =>
        (* calculate draw coords *)
        let topLeft := CropEngine.imageToCanvas st 0 0 in
        let bottomRight :=
          CropEngine.imageToCanvas st (Image.width img) (Image.height img) in
        let drawW := Point.x bottomRight - Point.x topLeft in
        let drawH := Point.y bottomRight - Point.y topLeft in
        [drawImage img (Point.x topLeft) (Point.y topLeft) drawW drawH] ++
        match CropEngine.cropRect st with
        | None => []
        | Some r =>
            let cTL :=
              CropEngine.imageToCanvas st (CropRect.x r) (CropRect.y r) in
            let cBR :=
              CropEngine.imageToCanvas st (CropRect.x r + CropRect.width r)
                (CropRect.y r + CropRect.height r) in
            let cx := Point.x cTL in
            let cy := Point.y cTL in
            let cw := Point.x cBR - Point.x cTL in
            let ch := Point.y cBR - Point.y cTL in
            let handleSize := 8 in
            let half := handleSize / 2 in
            [ (* darken outside *)
              fillStyle "rgba(0, 0, 0, 0.6)"; beginPath;
              rect 0 0 canvasW canvasH; rect cx cy cw ch;
              clip "evenodd"; fill; resetTransform;
              (* border *)
              strokeStyle "#fff"; lineWidth 2; strokeRect cx cy cw ch;
              (* handles *)
              fillStyle "#fff";
              fillRect (cx - half) (cy - half) handleSize handleSize;
              fillRect (cx + cw - half) (cy - half) handleSize handleSize;
              fillRect (cx - half) (cy + ch - half) handleSize handleSize;
              fillRect (cx + cw - half) (cy + ch - half) handleSize handleSize;
              (* grid *)
              strokeStyle "rgba(255, 255, 255, 0.3)"; lineWidth 1; beginPath;
              moveTo (cx + cw / 3) cy; lineTo (cx + cw / 3) (cy + ch);
              moveTo (cx + 2 * cw / 3) cy; lineTo (cx + 2 * cw / 3) (cy + ch);
              moveTo cx (cy + ch / 3); lineTo (cx + cw) (cy + ch / 3);
              moveTo cx (cy + 2 * ch / 3); lineTo (cx + cw) (cy + 2 * ch / 3);
              stroke ]
        end
    end.

(** The point [p] of the canvas lies within the square of side [size]
    whose top left corner is at [(x, y)], the area a [fillRect] paints. *)
Definition inSquare (x y size : Q) (p : Point.t) : Prop :=
  x <= Point.x p <= x + size /\ y <= Point.y p <= y + size.

End Render.

(** ** Sample states

    Concrete states on which the statements below are evaluated: an image
    of 2000 by 1000 on a canvas of 880 by 680 shown at its own size, so
    that the base scale is 0.4, and the square crop of side 500 centred
    at (750, 500). *)

Module Samples.

Definition image : Image.t := Image.mk 2000 1000.

Definition canvas : Canvas.t := Canvas.mk 880 680 (DOMRect.mk 0 0 880 680).

Definition crop : CropRect.t := CropRect.mk 500 250 500 500.

(** An engine in the middle of a drag that started at the centre of the
    canvas. *)
Definition dragging (mode : CropEngine.DragMode) : CropEngine.t :=
  CropEngine.mk canvas (Some image) (Some crop) true
    (Some (Point.mk 440 340)) (Some mode) (CropEngine.mkView 1 0 0).

(** The engine after the image was loaded, with the default crop, the
    square of side 800 at (600, 100), whose bottom right handle is drawn
    at (600, 500) on the canvas; and after a mouse down on that handle. *)
Definition loaded : CropEngine.t :=
  fst (CropEngine.setImage (CropEngine.new canvas) image).

Definition grabbed_br : CropEngine.t :=
  CropEngine.handleMouseDown loaded (CropEngine.mkMouse 600 500).

(** The same engine zoomed in as far as the wheel allows. *)
Definition zoomed_in : CropEngine.t :=
  CropEngine.mk canvas (Some image) (Some crop) false None None
    (CropEngine.mkView 10 30 (-20)).

(** The pointer at the bottom right corner of the canvas, which lies
    outside the image, and at a point of the canvas inside the image. *)
Definition corner : CropEngine.MouseEvent := CropEngine.mkMouse 880 680.
Definition inside : CropEngine.MouseEvent := CropEngine.mkMouse 500 400.

Definition wheel_up : CropEngine.WheelEvent :=
  CropEngine.mkWheel inside (-100).

(** The third default preset, 1200 by 630. *)
Definition facebook : SizePreset.t :=
  SizePreset.mk "3" 1200 630 "Facebook/Twitter" true.

Definition square : SizePreset.t :=
  SizePreset.mk "1" 1080 1080 "Instagram Square" true.

Definition portrait : SizePreset.t :=
  SizePreset.mk "2" 1080 1350 "Instagram Portrait" true.

(** A very wide target, which no crop of the sample image can fill. *)
Definition banner : SizePreset.t :=
  SizePreset.mk "5" 3000 100 "Wide  banner" false.

(** A browser whose blobs are numbers, that always provides a context,
    and whose encoder raises for the preset of id 1, yields no blob for
    the preset of id 2 and yields blob 7 for all others; the tasks resume
    in the order of the list. *)
Definition getContext (preset : SizePreset.t) : bool := true.

Definition drawAndEncode (image : Image.t) (source : CropRect.t)
    (preset : SizePreset.t) (format : Format) (quality : Q)
  : BatchProcessor.Settled (option nat) :=
  if String.eqb (SizePreset.id preset) "1" then BatchProcessor.Rejected
  else if String.eqb (SizePreset.id preset) "2"
       then BatchProcessor.Fulfilled None
       else BatchProcessor.Fulfilled (Some 7%nat).

Definition schedule
    (tasks : list (SizePreset.t * BatchProcessor.Settled (option nat)))
  : list (SizePreset.t * BatchProcessor.Settled (option nat)) := tasks.

(** A manager holding the default presets, and an update of the width. *)
Definition manager : PresetManager.t := PresetManager.new None.

Definition widen : PresetManager.Partial :=
  PresetManager.mkPartial None (Some 1300%Z) None None None.

End Samples.

(** * Properties *)

(** ** Numbers *)

Lemma Qlt_bool_true (a b : Q) : Qlt_bool a b = true <-> a < b.
Proof.
  unfold Qlt_bool. rewrite negb_true_iff.
  split; intros H.
  - apply Qnot_le_lt. intros Hle. apply Qle_bool_iff in Hle. congruence.
  - destruct (Qle_bool b a) eqn:E; [|reflexivity].
    apply Qle_bool_iff in E. exfalso. apply (Qlt_not_le _ _ H E).
Qed.

Lemma Qlt_bool_false (a b : Q) : Qlt_bool a b = false <-> b <= a.
Proof.
  unfold Qlt_bool. rewrite negb_false_iff. apply Qle_bool_iff.
Qed.

Lemma Qle_bool_false (a b : Q) : Qle_bool a b = false <-> b < a.
Proof.
  split; intros H.
  - apply Qnot_le_lt. intros Hle. apply Qle_bool_iff in Hle. congruence.
  - destruct (Qle_bool a b) eqn:E; [|reflexivity].
    apply Qle_bool_iff in E. exfalso. apply (Qlt_not_le _ _ H E).
Qed.

(** [Math.max] and [Math.min] are [Qmax] and [Qmin]; their defining cases. *)
Lemma Math_max_cases (a b : Q) :
  (a < b /\ Qmax a b == b) \/ (b <= a /\ Qmax a b == a).
Proof. apply Q.max_spec. Qed.

Lemma Math_min_cases (a b : Q) :
  (a < b /\ Qmin a b == a) \/ (b <= a /\ Qmin a b == b).
Proof. apply Q.min_spec. Qed.

(** Names every [Qmax]/[Qmin] of the goal, keeps its defining cases as a
  hypothesis, and splits on them. *)
Ltac name_minmax :=
  repeat match goal with
  | |- context [Qmax ?a ?b] => name_max a b
  | |- context [Qmin ?a ?b] => name_min a b
  | _ : context [Qmax ?a ?b] |- _ => name_max a b
  | _ : context [Qmin ?a ?b] |- _ => name_min a b
  end
with name_max a b :=
  let m := fresh "m" in
  let H := fresh "Hm" in
  pose proof (Math_max_cases a b) as H;
  set (m := Qmax a b) in *; clearbody m
with name_min a b :=
  let m := fresh "m" in
  let H := fresh "Hm" in
  pose proof (Math_min_cases a b) as H;
  set (m := Qmin a b) in *; clearbody m.

Ltac split_minmax :=
name_minmax;
repeat match goal with
| H : (_ /\ _) \/ (_ /\ _) |- _ => destruct H as [[? ?]|[? ?]]
end.

Lemma Qdiv_pos (a b : Q) : 0 < a -> 0 < b -> 0 < a / b.
Proof.
  intros Ha Hb. unfold Qdiv.
  apply Qmult_lt_0_compat; [assumption|].
  apply Qinv_lt_0_compat. assumption.
Qed.

(** ** The camera of the crop engine *)

Section Camera.

Import CropEngine.

Variable st : CropEngine.t.
Variable img : Image.t.
Hypothesis Himage : image st = Some img.

Lemma getBaseScale_pos :
  0 < Image.width img -> 0 < Image.height img -> 0 < getBaseScale st.
Proof.
  intros Hw Hh. unfold getBaseScale. rewrite Himage. cbv zeta.
  destruct (Qle_bool (Canvas.width (canvas st) - 40 * 2) 0) eqn:Ew;
    [reflexivity|].
  destruct (Qle_bool (Canvas.height (canvas st) - 40 * 2) 0) eqn:Eh;
    [reflexivity|].
  cbn [orb].
  apply Qle_bool_false in Ew. apply Qle_bool_false in Eh.
  apply Q.min_glb_lt; apply Qdiv_pos; assumption.
Qed.

Lemma getBaseScale_set_view (v : View) :
  getBaseScale (set_view st v) = getBaseScale st.
Proof. reflexivity. Qed.

(** The x coordinate of a round trip through canvas space. *)
Lemma round_trip_x (x y : Q) :
  ~ getBaseScale st * zoom (view st) == 0 ->
  Point.x (canvasToImage st (Point.x (imageToCanvas st x y))
                            (Point.y (imageToCanvas st x y))) == x.
Proof.
  intros Hs. unfold canvasToImage, imageToCanvas. rewrite Himage.
  cbn [Point.x Point.y]. field.
  split; intros H0; apply Hs; rewrite H0; ring.
Qed.

Lemma round_trip_y (x y : Q) :
  ~ getBaseScale st * zoom (view st) == 0 ->
  Point.y (canvasToImage st (Point.x (imageToCanvas st x y))
                            (Point.y (imageToCanvas st x y))) == y.
Proof.
  intros Hs. unfold canvasToImage, imageToCanvas. rewrite Himage.
  cbn [Point.x Point.y]. field.
  split; intros H0; apply Hs; rewrite H0; ring.
Qed.

End Camera.

(** C6. For an engine that holds an image, with a positive base scale and
    a zoom within [0.1, 10], mapping an image-space point to canvas space
    with [imageToCanvas] and back with [canvasToImage] returns the point,
    in exact arithmetic. *)
Theorem canvasToImage_imageToCanvas
    (st : CropEngine.t) (img : Image.t) (x y : Q) :
  CropEngine.image st = Some img ->
  0 < CropEngine.getBaseScale st ->
  0.1 <= CropEngine.zoom (CropEngine.view st) <= 10 ->
  let p := CropEngine.imageToCanvas st x y in
  Point.x (CropEngine.canvasToImage st (Point.x p) (Point.y p)) == x /\
  Point.y (CropEngine.canvasToImage st (Point.x p) (Point.y p)) == y.
Proof.
  intros Himg Hb [Hz _] p. subst p.
  assert (Hs : ~ CropEngine.getBaseScale st
                 * CropEngine.zoom (CropEngine.view st) == 0).
  { intros H0.
    assert (0 < CropEngine.zoom (CropEngine.view st)) by lra.
    nra. }
  split.
  - apply (round_trip_x st img Himg x y Hs).
  - apply (round_trip_y st img Himg x y Hs).
Qed.

Ltac by_computation :=
  vm_compute; first [reflexivity | discriminate | intro; discriminate].

Lemma canvasToImage_imageToCanvas_witness :
  let st := Samples.dragging CropEngine.move in
  (CropEngine.image st = Some Samples.image /\
   0 < CropEngine.getBaseScale st /\
   0.1 <= CropEngine.zoom (CropEngine.view st) <= 10) /\
  Point.x (CropEngine.canvasToImage st
             (Point.x (CropEngine.imageToCanvas st 750 500))
             (Point.y (CropEngine.imageToCanvas st 750 500))) == 750.
Proof.
  assert (H1 : CropEngine.image (Samples.dragging CropEngine.move)
               = Some Samples.image) by reflexivity.
  assert (H2 : 0 < CropEngine.getBaseScale (Samples.dragging CropEngine.move))
    by by_computation.
  assert (H3 : 0.1 <= CropEngine.zoom
                        (CropEngine.view (Samples.dragging CropEngine.move))
               <= 10)
    by (split; by_computation).
  split; [auto|].
  exact (proj1 (canvasToImage_imageToCanvas
                  (Samples.dragging CropEngine.move) Samples.image 750 500
                  H1 H2 H3)).
Defined.

(** ** The wheel *)

(** Unfolds [handleWheel] on an engine that holds an image, down to the
    arithmetic of the new view. *)
Ltac unfold_wheel Himg :=
  unfold CropEngine.handleWheel; rewrite Himg; cbv zeta;
  unfold CropEngine.imageToCanvas;
  cbn [CropEngine.image CropEngine.set_view CropEngine.view CropEngine.zoom
       CropEngine.panX CropEngine.panY CropEngine.canvas Point.x Point.y];
  rewrite ?Himg; rewrite ?getBaseScale_set_view;
  cbn [CropEngine.view CropEngine.zoom CropEngine.panX CropEngine.panY
       Point.x Point.y].

Section Wheel.

Import CropEngine.

Variable st : CropEngine.t.
Variable img : Image.t.
Variable e : WheelEvent.
Hypothesis Hgeo : finite_geometry st img.

Lemma total_scale_nonzero : ~ getBaseScale st * zoom (view st) == 0.
Proof.
  destruct Hgeo as (Himg & Hw & Hh & _ & _ & Hz).
  pose proof (getBaseScale_pos st img Himg Hw Hh) as Hb.
  intros H0. nra.
Qed.

(** The zoom [handleWheel] sets is the clamped product. *)
Lemma handleWheel_zoom_range :
  0.1 <= zoom (view (handleWheel st e)) <= 10.
Proof.
  destruct Hgeo as (Himg & _).
  unfold_wheel Himg. split_minmax; split; lra.
Qed.

(** The pan [handleWheel] sets puts the point that was under the pointer
    back under the pointer. *)
Lemma handleWheel_anchor :
  let mouse := getMouseCanvasPos st (pointer e) in
  let p := canvasToImage st (Point.x mouse) (Point.y mouse) in
  let q := imageToCanvas (handleWheel st e) (Point.x p) (Point.y p) in
  Point.x q == Point.x mouse /\ Point.y q == Point.y mouse.
Proof.
  destruct Hgeo as (Himg & _). intros mouse p q. subst q p mouse.
  unfold_wheel Himg. split; ring.
Qed.

(** When the clamped zoom is the zoom the camera already has, the pan the
    handler computes is the pan the camera already has. *)
Lemma handleWheel_same_zoom_same_pan :
  zoom (view (handleWheel st e)) == zoom (view st) ->
  panX (view (handleWheel st e)) == panX (view st) /\
  panY (view (handleWheel st e)) == panY (view st).
Proof.
  pose proof total_scale_nonzero as Hs.
  destruct Hgeo as (Himg & _).
  unfold_wheel Himg.
  set (newZoom := Qmax _ _). intros Hz. rewrite !Hz.
  unfold canvasToImage. rewrite Himg. cbn [Point.x Point.y].
  split; field; split; intros H0; apply Hs; rewrite H0; ring.
Qed.

(** The clamped zoom is the current zoom exactly at the two limits, when
    the wheel turns towards the limit. *)
Lemma handleWheel_zoom_at_limit :
  (zoom (view st) == 10 /\ deltaY e <= 0) \/
  (zoom (view st) == 0.1 /\ 0 < deltaY e) ->
  zoom (view (handleWheel st e)) == zoom (view st).
Proof.
  destruct Hgeo as (Himg & _). unfold_wheel Himg.
  intros [[Hz Hd] | [Hz Hd]].
  - apply Qlt_bool_false in Hd. rewrite Hd. split_minmax; lra.
  - apply Qlt_bool_true in Hd. rewrite Hd. split_minmax; lra.
Qed.

End Wheel.

(** C4. For every wheel event, at any pointer position, on an engine that
    holds an image and whose zoom is within [0.1, 10]: after
    [handleWheel] the zoom is again within [0.1, 10], and the image-space
    point that was under the pointer before the call is mapped by
    [imageToCanvas], with the new zoom and pan, to the canvas position of
    the pointer. *)
Theorem handleWheel_zoom_clamped_and_anchored
    (st : CropEngine.t) (img : Image.t) (e : CropEngine.WheelEvent) :
  CropEngine.finite_geometry st img ->
  0.1 <= CropEngine.zoom (CropEngine.view st) <= 10 ->
  let st' := CropEngine.handleWheel st e in
  let mouse := CropEngine.getMouseCanvasPos st (CropEngine.pointer e) in
  let p := CropEngine.canvasToImage st (Point.x mouse) (Point.y mouse) in
  0.1 <= CropEngine.zoom (CropEngine.view st') <= 10 /\
  Point.x (CropEngine.imageToCanvas st' (Point.x p) (Point.y p))
    == Point.x mouse /\
  Point.y (CropEngine.imageToCanvas st' (Point.x p) (Point.y p))
    == Point.y mouse.
Proof.
  intros Hgeo _ st' mouse p. split.
  - apply (handleWheel_zoom_range st img e Hgeo).
  - apply (handleWheel_anchor st img e Hgeo).
Qed.

(** C9. For every wheel event for which the clamped new zoom equals the
    current zoom, [handleWheel] leaves the camera as it was: zoom, panX
    and panY equal their prior values, in exact arithmetic. *)
Theorem handleWheel_at_limit_is_noop
    (st : CropEngine.t) (img : Image.t) (e : CropEngine.WheelEvent) :
  CropEngine.finite_geometry st img ->
  CropEngine.zoom (CropEngine.view (CropEngine.handleWheel st e))
    == CropEngine.zoom (CropEngine.view st) ->
  let st' := CropEngine.handleWheel st e in
  CropEngine.zoom (CropEngine.view st') == CropEngine.zoom (CropEngine.view st) /\
  CropEngine.panX (CropEngine.view st') == CropEngine.panX (CropEngine.view st) /\
  CropEngine.panY (CropEngine.view st') == CropEngine.panY (CropEngine.view st).
Proof.
  intros Hgeo Hz st'. split; [exact Hz|].
  apply (handleWheel_same_zoom_same_pan st img e Hgeo Hz).
Qed.

Lemma handleWheel_zoom_clamped_and_anchored_witness :
  let st := Samples.dragging CropEngine.move in
  let e := Samples.wheel_up in
  (CropEngine.finite_geometry st Samples.image /\
   0.1 <= CropEngine.zoom (CropEngine.view st) <= 10) /\
  0.1 <= CropEngine.zoom (CropEngine.view (CropEngine.handleWheel st e)) <= 10.
Proof.
  assert (H1 : CropEngine.finite_geometry
                 (Samples.dragging CropEngine.move) Samples.image)
    by (repeat split; by_computation).
  assert (H2 : 0.1 <= CropEngine.zoom
                        (CropEngine.view (Samples.dragging CropEngine.move))
               <= 10)
    by (split; by_computation).
  split; [auto|].
  exact (proj1 (handleWheel_zoom_clamped_and_anchored
                  (Samples.dragging CropEngine.move) Samples.image
                  Samples.wheel_up H1 H2)).
Defined.

Lemma handleWheel_at_limit_is_noop_witness :
  let st := Samples.zoomed_in in
  let e := Samples.wheel_up in
  (CropEngine.finite_geometry st Samples.image /\
   CropEngine.zoom (CropEngine.view (CropEngine.handleWheel st e))
     == CropEngine.zoom (CropEngine.view st)) /\
  CropEngine.panX (CropEngine.view (CropEngine.handleWheel st e)) == 30.
Proof.
  assert (H1 : CropEngine.finite_geometry Samples.zoomed_in Samples.image)
    by (repeat split; by_computation).
  assert (H2 : CropEngine.zoom
                 (CropEngine.view
                    (CropEngine.handleWheel Samples.zoomed_in Samples.wheel_up))
               == CropEngine.zoom (CropEngine.view Samples.zoomed_in))
    by by_computation.
  split; [auto|].
  exact (proj1 (proj2 (handleWheel_at_limit_is_noop
                         Samples.zoomed_in Samples.image Samples.wheel_up
                         H1 H2))).
Defined.

(** ** Pointer moves *)

Section PointerMove.

Import CropEngine.

(** *** The two branches, on rectangles *)

Variable img : Image.t.
Variable r : CropRect.t.

Lemma moveRect_inv (dx dy : Q) :
  crop_inv img r -> crop_inv img (moveRect img r dx dy).
Proof.
  unfold crop_inv, moveRect. cbn [CropRect.x CropRect.y CropRect.width
                                  CropRect.height].
  intros (Hx & Hy & Hxw & Hyh & Hw & Hh).
  split_minmax; repeat split; lra.
Qed.

Lemma resizeRect_min_size (mode : DragMode) (p : Point.t) :
  resizing mode ->
  10 <= CropRect.width r -> 10 <= CropRect.height r ->
  10 <= CropRect.width (resizeRect mode r p) /\
  10 <= CropRect.height (resizeRect mode r p).
Proof.
  intros [->|[->|[->| ->]]] Hw Hh;
    cbn [resizeRect CropRect.x CropRect.y CropRect.width CropRect.height];
    split_minmax; split; lra.
Qed.

Lemma resizeRect_inv_inside (mode : DragMode) (p : Point.t) :
  resizing mode -> crop_inv img r -> insideImage img p ->
  crop_inv img (resizeRect mode r p).
Proof.
  unfold crop_inv, insideImage.
  intros [->|[->|[->| ->]]] (Hx & Hy & Hxw & Hyh & Hw & Hh)
         ((Hpx0 & Hpx1) & (Hpy0 & Hpy1));
    cbn [resizeRect CropRect.x CropRect.y CropRect.width CropRect.height];
    split_minmax; repeat split; lra.
Qed.

(** The corner opposite to the dragged one. *)
Lemma resizeRect_br (p : Point.t) :
  CropRect.x (resizeRect resize_br r p) == CropRect.x r /\
  CropRect.y (resizeRect resize_br r p) == CropRect.y r.
Proof. split; reflexivity. Qed.

Lemma resizeRect_tl (p : Point.t) :
  let r' := resizeRect resize_tl r p in
  CropRect.x r' + CropRect.width r' == CropRect.x r + CropRect.width r /\
  CropRect.y r' + CropRect.height r' == CropRect.y r + CropRect.height r.
Proof.
  cbn [resizeRect CropRect.x CropRect.y CropRect.width CropRect.height].
  split; ring.
Qed.

Lemma resizeRect_tr (p : Point.t) :
  let r' := resizeRect resize_tr r p in
  CropRect.x r' == CropRect.x r /\
  CropRect.y r' + CropRect.height r' == CropRect.y r + CropRect.height r.
Proof.
  cbn [resizeRect CropRect.x CropRect.y CropRect.width CropRect.height].
  split; [reflexivity | ring].
Qed.

Lemma resizeRect_bl (p : Point.t) :
  let r' := resizeRect resize_bl r p in
  CropRect.x r' + CropRect.width r' == CropRect.x r + CropRect.width r /\
  CropRect.y r' == CropRect.y r.
Proof.
  cbn [resizeRect CropRect.x CropRect.y CropRect.width CropRect.height].
  split; [ring | reflexivity].
Qed.

(** *** The handler *)

Variable st : CropEngine.t.
Variable mode : DragMode.
Variable e : MouseEvent.
Hypothesis Himage : image st = Some img.
Hypothesis Hgesture : gesture st r mode.

Lemma handleMouseMove_move :
  mode = move ->
  exists dx dy : Q,
    cropRect (fst (handleMouseMove st e)) = Some (moveRect img r dx dy).
Proof.
  destruct Hgesture as (Hd & Hr & Hm & Hs).
  destruct (dragStart st) as [ds|] eqn:Hds; [|congruence].
  intros ->. unfold handleMouseMove.
  rewrite Hd, Himage, Hr, Hm, Hds. cbn [fst cropRect set_dragStart set_cropRect].
  eexists _, _. reflexivity.
Qed.

Lemma handleMouseMove_resize :
  resizing mode ->
  cropRect (fst (handleMouseMove st e))
  = Some (resizeRect mode r (pointerInImage st e)).
Proof.
  destruct Hgesture as (Hd & Hr & Hm & Hs).
  destruct (dragStart st) as [ds|] eqn:Hds; [|congruence].
  unfold handleMouseMove, pointerInImage.
  rewrite Hd, Himage, Hr, Hm, Hds.
  intros [->|[->|[->| ->]]]; reflexivity.
Qed.

End PointerMove.

(** C5. For every pointer move handled in a resizing state, the corner
    opposite to the dragged one stays where it is: the top-left corner
    when resizing from br, the bottom-right corner from tl, the bottom-left
    corner from tr and the top-right corner from bl (the precondition of
    a width and a height of at least 10 is not needed). *)
Theorem resize_keeps_opposite_corner
    (st : CropEngine.t) (img : Image.t) (r : CropRect.t)
    (mode : CropEngine.DragMode) (e : CropEngine.MouseEvent) :
  CropEngine.finite_geometry st img ->
  CropEngine.gesture st r mode ->
  CropEngine.resizing mode ->
  exists r' : CropRect.t,
    CropEngine.cropRect (fst (CropEngine.handleMouseMove st e)) = Some r' /\
    (mode = CropEngine.resize_br ->
       CropRect.x r' == CropRect.x r /\ CropRect.y r' == CropRect.y r) /\
    (mode = CropEngine.resize_tl ->
       CropRect.x r' + CropRect.width r' == CropRect.x r + CropRect.width r /\
       CropRect.y r' + CropRect.height r' == CropRect.y r + CropRect.height r) /\
    (mode = CropEngine.resize_tr ->
       CropRect.x r' == CropRect.x r /\
       CropRect.y r' + CropRect.height r' == CropRect.y r + CropRect.height r) /\
    (mode = CropEngine.resize_bl ->
       CropRect.x r' + CropRect.width r' == CropRect.x r + CropRect.width r /\
       CropRect.y r' == CropRect.y r).
Proof.
  intros (Himg & _) Hg Hmode.
  eexists. split.
  - apply (handleMouseMove_resize img r st mode e Himg Hg Hmode).
  - split; [|split; [|split]]; intros ->.
    + apply resizeRect_br.
    + apply (resizeRect_tl r).
    + apply (resizeRect_tr r).
    + apply (resizeRect_bl r).
Qed.

Lemma resize_keeps_opposite_corner_witness :
  let st := Samples.dragging CropEngine.resize_tl in
  (CropEngine.finite_geometry st Samples.image /\
   CropEngine.gesture st Samples.crop CropEngine.resize_tl /\
   CropEngine.resizing CropEngine.resize_tl) /\
  exists r' : CropRect.t,
    CropEngine.cropRect (fst (CropEngine.handleMouseMove st Samples.inside))
    = Some r' /\
    CropRect.x r' + CropRect.width r' == 1000 /\
    CropRect.y r' + CropRect.height r' == 750.
Proof.
  assert (H1 : CropEngine.finite_geometry
                 (Samples.dragging CropEngine.resize_tl) Samples.image)
    by (repeat split; by_computation).
  assert (H2 : CropEngine.gesture (Samples.dragging CropEngine.resize_tl)
                 Samples.crop CropEngine.resize_tl)
    by (repeat split; discriminate).
  assert (H3 : CropEngine.resizing CropEngine.resize_tl)
    by (left; reflexivity).
  split; [auto|].
  destruct (resize_keeps_opposite_corner
              (Samples.dragging CropEngine.resize_tl) Samples.image
              Samples.crop CropEngine.resize_tl Samples.inside H1 H2 H3)
    as (r' & Hr' & _ & Htl & _).
  exists r'. split; [exact Hr'|].
  exact (Htl eq_refl).
Defined.

(** C1. The property fails on the code: after the image 2000 by 1000 is
    loaded on a canvas of 880 by 680, a mouse down on the bottom right
    handle of the default crop starts a resize from br, and a mouse move to
    the corner of the canvas, which is (2100, 1350) in image space, makes
    the crop rectangle 1500 wide and 1250 high from (600, 100): it ends at
    x + width = 2100 and y + height = 1350, outside the image, although the
    crop rectangle satisfied the invariants before the move. *)
Lemma resize_br_past_image_edge :
  let st := Samples.grabbed_br in
  let st' := fst (CropEngine.handleMouseMove st Samples.corner) in
  CropEngine.dragMode st = Some CropEngine.resize_br /\
  (exists r, CropEngine.cropRect st = Some r /\
             CropEngine.crop_inv Samples.image r) /\
  exists r', CropEngine.cropRect st' = Some r' /\
             CropRect.x r' == 600 /\ CropRect.y r' == 100 /\
             CropRect.width r' == 1500 /\ CropRect.height r' == 1250 /\
             ~ CropRect.x r' + CropRect.width r' <= Image.width Samples.image /\
             ~ CropRect.y r' + CropRect.height r' <= Image.height Samples.image /\
             ~ CropEngine.crop_inv Samples.image r'.
Proof.
  cbv zeta. split; [vm_compute; reflexivity|]. split.
  - eexists. split; [vm_compute; reflexivity|].
    unfold CropEngine.crop_inv. split_and!; by_computation.
  - eexists. split; [vm_compute; reflexivity|].
    split_and!; try by_computation.
    + intros H. vm_compute in H. apply H. reflexivity.
    + intros H. vm_compute in H. apply H. reflexivity.
    + intros (_ & _ & H & _). vm_compute in H. apply H. reflexivity.
Qed.

(** The property of the specification, quantified over all gestures, is
    therefore not a theorem of the code. *)
Lemma resize_br_leaves_image :
  ~ CropEngine.pointerMove_preserves_invariants.
Proof.
  intros H.
  assert (H1 : CropEngine.finite_geometry
                 (Samples.dragging CropEngine.resize_br) Samples.image)
    by (repeat split; by_computation).
  assert (H2 : CropEngine.gesture (Samples.dragging CropEngine.resize_br)
                 Samples.crop CropEngine.resize_br)
    by (repeat split; discriminate).
  assert (H3 : CropEngine.crop_inv Samples.image Samples.crop)
    by (repeat split; by_computation).
  assert (H4 : CropEngine.resize_br = CropEngine.move
               \/ CropEngine.resizing CropEngine.resize_br)
    by (right; do 3 right; reflexivity).
  destruct (H (Samples.dragging CropEngine.resize_br) Samples.image
              Samples.crop _ CropEngine.resize_br Samples.corner
              H1 H2 H4 H3 eq_refl) as (_ & _ & Hxw & _).
  vm_compute in Hxw. apply Hxw. reflexivity.
Qed.

(** What the code does establish: for every image and every crop
    rectangle that satisfies the invariants, after a pointer move handled
    in the moving state the crop rectangle satisfies all of them again;
    after one handled in a resizing state its width and height are at
    least 10, and it satisfies all the invariants whenever the pointer, in
    image space, lies within the image. *)
Theorem pointerMove_crop_invariants
    (st : CropEngine.t) (img : Image.t) (r : CropRect.t)
    (mode : CropEngine.DragMode) (e : CropEngine.MouseEvent) :
  CropEngine.finite_geometry st img ->
  CropEngine.gesture st r mode ->
  mode = CropEngine.move \/ CropEngine.resizing mode ->
  CropEngine.crop_inv img r ->
  exists r' : CropRect.t,
    CropEngine.cropRect (fst (CropEngine.handleMouseMove st e)) = Some r' /\
    (mode = CropEngine.move -> CropEngine.crop_inv img r') /\
    (CropEngine.resizing mode ->
       10 <= CropRect.width r' /\ 10 <= CropRect.height r' /\
       (CropEngine.insideImage img (CropEngine.pointerInImage st e) ->
        CropEngine.crop_inv img r')).
Proof.
  intros (Himg & _) Hg [Hmove | Hresize] Hinv.
  - destruct (handleMouseMove_move img r st mode e Himg Hg Hmove)
      as (dx & dy & Hr').
    eexists. split; [exact Hr'|]. split.
    + intros _. apply moveRect_inv. exact Hinv.
    + subst mode. intros [H|[H|[H|H]]]; discriminate H.
  - eexists. split;
      [apply (handleMouseMove_resize img r st mode e Himg Hg Hresize)|].
    split.
    + intros ->. destruct Hresize as [H|[H|[H|H]]]; discriminate H.
    + intros _. destruct Hinv as (Hx & Hy & Hxw & Hyh & Hw & Hh).
      destruct (resizeRect_min_size r mode (CropEngine.pointerInImage st e)
                  Hresize Hw Hh) as (Hw' & Hh').
      split; [exact Hw'|]. split; [exact Hh'|].
      intros Hin. apply resizeRect_inv_inside; [exact Hresize| |exact Hin].
      repeat split; assumption.
Qed.

Lemma pointerMove_crop_invariants_witness :
  let st := Samples.dragging CropEngine.move in
  (CropEngine.finite_geometry st Samples.image /\
   CropEngine.gesture st Samples.crop CropEngine.move /\
   (CropEngine.move = CropEngine.move \/ CropEngine.resizing CropEngine.move) /\
   CropEngine.crop_inv Samples.image Samples.crop) /\
  exists r' : CropRect.t,
    CropEngine.cropRect (fst (CropEngine.handleMouseMove st Samples.corner))
    = Some r' /\
    CropEngine.crop_inv Samples.image r'.
Proof.
  assert (H1 : CropEngine.finite_geometry
                 (Samples.dragging CropEngine.move) Samples.image)
    by (repeat split; by_computation).
  assert (H2 : CropEngine.gesture (Samples.dragging CropEngine.move)
                 Samples.crop CropEngine.move)
    by (repeat split; discriminate).
  assert (H3 : CropEngine.move = CropEngine.move
               \/ CropEngine.resizing CropEngine.move)
    by (left; reflexivity).
  assert (H4 : CropEngine.crop_inv Samples.image Samples.crop)
    by (repeat split; by_computation).
  split; [auto|].
  destruct (pointerMove_crop_invariants
              (Samples.dragging CropEngine.move) Samples.image Samples.crop
              CropEngine.move Samples.corner H1 H2 H3 H4)
    as (r' & Hr' & Hmove & _).
  exists r'. split; [exact Hr'|].
  exact (Hmove eq_refl).
Defined.

(** ** The re-framer *)

Section Reframe.

Variable targetRatio : Q.
Hypothesis Hratio : 0 < targetRatio.

Variables imageW imageH : Q.

(** The two shrink steps keep the target ratio and end within the image,
    whatever positive box they start from. *)
Lemma shrink_to_image (sourceW0 sourceH0 : Q) :
  0 < sourceH0 -> sourceW0 == sourceH0 * targetRatio ->
  0 < imageW -> 0 < imageH ->
  let overW := Qlt_bool imageW sourceW0 in
  let sourceW1 := if overW then imageW else sourceW0 in
  let sourceH1 := if overW then imageW / targetRatio else sourceH0 in
  let overH := Qlt_bool imageH sourceH1 in
  let sourceH := if overH then imageH else sourceH1 in
  let sourceW := if overH then imageH * targetRatio else sourceW1 in
  sourceW == sourceH * targetRatio /\ 0 < sourceH /\
  sourceW <= imageW /\ sourceH <= imageH.
Proof.
  intros Hh0 Hw0 HW HH overW sourceW1 sourceH1 overH sourceH sourceW.
  assert (Hdiv : imageW / targetRatio * targetRatio == imageW)
    by (field; lra).
  assert (Hdivpos : 0 < imageW / targetRatio) by (apply Qdiv_pos; assumption).
  assert (H1 : sourceW1 == sourceH1 * targetRatio /\ 0 < sourceH1 /\
               sourceW1 <= imageW).
  { subst sourceW1 sourceH1. destruct overW eqn:E; subst overW.
    - rewrite Hdiv. split_and!; [reflexivity | assumption | lra].
    - apply Qlt_bool_false in E. split_and!; assumption. }
  destruct H1 as (Hr1 & Hp1 & Hb1).
  subst sourceW sourceH. destruct overH eqn:E; subst overH.
  - apply Qlt_bool_true in E.
    split_and!; [reflexivity | assumption | nra | lra].
  - apply Qlt_bool_false in E. split_and!; assumption.
Qed.

(** Centring then shifting puts a box that fits into the image inside it. *)
Lemma shift_into_image (c size bound : Q) :
  size <= bound ->
  let source0 := c - size / 2 in
  let source1 := if Qlt_bool source0 0 then 0 else source0 in
  let source :=
    if Qlt_bool bound (source1 + size) then bound - size else source1 in
  0 <= source /\ source + size <= bound.
Proof.
  intros Hfit source0 source1 source. subst source source1.
  destruct (Qlt_bool source0 0) eqn:E0.
  - destruct (Qlt_bool bound (0 + size)) eqn:E1.
    + split; lra.
    + apply Qlt_bool_false in E1. split; lra.
  - apply Qlt_bool_false in E0.
    destruct (Qlt_bool bound (source0 + size)) eqn:E1.
    + split; lra.
    + apply Qlt_bool_false in E1. split; lra.
Qed.

End Reframe.

(** C2. For every image with positive dimensions (the integers among
    them), every user crop with a positive width and height and every
    preset with a positive width and height, the source rectangle of
    [generateImage] lies within [0, image.width] x [0, image.height], and
    its width over its height is the width of the preset over its height,
    in exact arithmetic. *)
Theorem sourceRect_within_image_with_target_ratio
    (image : Image.t) (userCrop : CropRect.t) (preset : SizePreset.t) :
  0 < Image.width image -> 0 < Image.height image ->
  0 < CropRect.width userCrop -> 0 < CropRect.height userCrop ->
  (0 < SizePreset.width preset)%Z -> (0 < SizePreset.height preset)%Z ->
  let s := BatchProcessor.sourceRect image userCrop preset in
  0 <= CropRect.x s /\ 0 <= CropRect.y s /\
  CropRect.x s + CropRect.width s <= Image.width image /\
  CropRect.y s + CropRect.height s <= Image.height image /\
  0 < CropRect.width s /\ 0 < CropRect.height s /\
  CropRect.width s / CropRect.height s
    == inject_Z (SizePreset.width preset) / inject_Z (SizePreset.height preset).
Proof.
  intros HW HH Huw Huh Hpw Hph s.
  set (targetRatio :=
         inject_Z (SizePreset.width preset)
         / inject_Z (SizePreset.height preset)).
  assert (Hratio : 0 < targetRatio).
  { apply Qdiv_pos; change 0 with (inject_Z 0); rewrite <- Zlt_Qlt;
      assumption. }
  set (wider :=
         Qlt_bool (CropRect.width userCrop / CropRect.height userCrop)
           targetRatio).
  set (sourceH0 := if wider then CropRect.height userCrop
                   else CropRect.width userCrop / targetRatio).
  set (sourceW0 := if wider then CropRect.height userCrop * targetRatio
                   else CropRect.width userCrop).
  assert (H0 : 0 < sourceH0 /\ sourceW0 == sourceH0 * targetRatio).
  { subst sourceH0 sourceW0. destruct wider.
    - split; [assumption | reflexivity].
    - split; [apply Qdiv_pos; assumption | field; lra]. }
  destruct H0 as (Hh0 & Hw0).
  pose proof (shrink_to_image targetRatio Hratio (Image.width image)
                (Image.height image) sourceW0 sourceH0 Hh0 Hw0 HW HH) as Hfit.
  cbv zeta in Hfit. destruct Hfit as (Hr & Hhpos & HfitW & HfitH).
  pose proof (shift_into_image
                (CropRect.x userCrop + CropRect.width userCrop / 2)
                _ (Image.width image) HfitW) as HX.
  pose proof (shift_into_image
                (CropRect.y userCrop + CropRect.height userCrop / 2)
                _ (Image.height image) HfitH) as HY.
  cbv zeta in HX, HY. destruct HX as (HX0 & HX1). destruct HY as (HY0 & HY1).
  subst s. unfold BatchProcessor.sourceRect.
  cbn [CropRect.x CropRect.y CropRect.width CropRect.height].
  fold targetRatio. fold wider. fold sourceH0. fold sourceW0.
  split_and!; try assumption.
  - rewrite Hr. nra.
  - rewrite Hr. field. lra.
Qed.

Lemma sourceRect_within_image_with_target_ratio_witness :
  (0 < Image.width Samples.image /\ 0 < Image.height Samples.image /\
   0 < CropRect.width Samples.crop /\ 0 < CropRect.height Samples.crop /\
   (0 < SizePreset.width Samples.facebook)%Z /\
   (0 < SizePreset.height Samples.facebook)%Z) /\
  let s := BatchProcessor.sourceRect Samples.image Samples.crop
             Samples.facebook in
  CropRect.x s + CropRect.width s <= Image.width Samples.image /\
  CropRect.width s / CropRect.height s == inject_Z 1200 / inject_Z 630.
Proof.
  assert (H1 : 0 < Image.width Samples.image) by reflexivity.
  assert (H2 : 0 < Image.height Samples.image) by reflexivity.
  assert (H3 : 0 < CropRect.width Samples.crop) by reflexivity.
  assert (H4 : 0 < CropRect.height Samples.crop) by reflexivity.
  assert (H5 : (0 < SizePreset.width Samples.facebook)%Z) by reflexivity.
  assert (H6 : (0 < SizePreset.height Samples.facebook)%Z) by reflexivity.
  split; [auto 10|].
  destruct (sourceRect_within_image_with_target_ratio
              Samples.image Samples.crop Samples.facebook H1 H2 H3 H4 H5 H6)
    as (_ & _ & Hx & _ & _ & _ & Hr).
  split; [exact Hx | exact Hr].
Defined.

(** C3, as the specification states it, fails: for the image 2000 by 1000,
    the crop of side 500 at (500, 250) and the target 1200 by 630, the
    source rectangle is not [{x: 273.75, y: 250, width: 952.5, height:
    500}]; its width is 500 * (1200 / 630), which is not 952.5. *)
Lemma scenario_width_is_not_rounded :
  let s := BatchProcessor.sourceRect Samples.image Samples.crop
             Samples.facebook in
  ~ (CropRect.x s == 273.75 /\ CropRect.y s == 250 /\
     CropRect.width s == 952.5 /\ CropRect.height s == 500).
Proof.
  intros s (_ & _ & Hw & _). vm_compute in Hw. discriminate Hw.
Qed.

(** C3, amended. For the image 2000 by 1000, the crop
    [{x: 500, y: 250, width: 500, height: 500}] and the target 1200 by
    630, the re-framer holds the height 500, widens to
    500 * (1200 / 630) = 20000/21 (about 952.38) and centres on
    (750, 500): the source rectangle is
    [{x: 5750/21, y: 250, width: 20000/21, height: 500}], with
    5750/21 about 273.81. *)
Theorem sourceRect_scenario :
  let s := BatchProcessor.sourceRect Samples.image Samples.crop
             Samples.facebook in
  CropRect.x s == 5750 # 21 /\ CropRect.y s == 250 /\
  CropRect.width s == 20000 # 21 /\ CropRect.height s == 500 /\
  CropRect.width s == 500 * (1200 / 630) /\
  CropRect.x s + CropRect.width s / 2 == 750 /\
  CropRect.y s + CropRect.height s / 2 == 500.
Proof.
  split_and!; vm_compute; reflexivity.
Qed.

(** ** The preset list *)

Section UpdatePreset.

Import PresetManager.

Variable id : string.
Variable updates : Partial.

Lemma updatePreset_presets (m : PresetManager.t) (silent : bool) :
  presets (updatePreset m id updates silent)
  = map (update_one id updates) (presets m).
Proof. reflexivity. Qed.

Lemma spread_merged (p : SizePreset.t) : merged p updates (spread p updates).
Proof.
  unfold merged, spread, field_merged. destruct updates as [i w h l k].
  cbn. destruct i, w, h, l, k; cbn; split_and!; reflexivity.
Qed.

Lemma update_one_match (p : SizePreset.t) :
  SizePreset.id p = id -> update_one id updates p = spread p updates.
Proof.
  intros H. unfold update_one. apply String.eqb_eq in H. rewrite H.
  reflexivity.
Qed.

Lemma update_one_other (p : SizePreset.t) :
  SizePreset.id p <> id -> update_one id updates p = p.
Proof.
  intros H. unfold update_one. apply String.eqb_neq in H. rewrite H.
  reflexivity.
Qed.

Lemma map_update_one_absent (l : list SizePreset.t) :
  (forall p, p ∈ l -> SizePreset.id p <> id) ->
  map (update_one id updates) l = l.
Proof.
  induction l as [|p l IH]; intros H; [reflexivity|].
  cbn [map]. rewrite update_one_other by (apply H; left).
  rewrite IH; [reflexivity|]. intros q Hq. apply H. right. exact Hq.
Qed.

End UpdatePreset.

(** C10. For every preset list, id and partial update, [updatePreset]
    replaces every preset whose id matches by the preset merged with the
    update (the listed fields taken from the update, the others kept) and
    leaves every other preset as it is, at the same position; the length
    of the list is unchanged; and if no preset has the id the list is
    unchanged. *)
Theorem updatePreset_frame
    (m : PresetManager.t) (id : string) (updates : PresetManager.Partial)
    (silent : bool) :
  let l := PresetManager.presets m in
  let l' :=
    PresetManager.presets (PresetManager.updatePreset m id updates silent) in
  length l' = length l /\
  (forall (i : nat) (p : SizePreset.t),
     l !! i = Some p -> SizePreset.id p = id ->
     exists q, l' !! i = Some q /\ PresetManager.merged p updates q) /\
  (forall (i : nat) (p : SizePreset.t),
     l !! i = Some p -> SizePreset.id p <> id -> l' !! i = Some p) /\
  ((forall p, p ∈ l -> SizePreset.id p <> id) -> l' = l).
Proof.
  intros l l'. subst l l'. rewrite updatePreset_presets.
  split_and!.
  - apply length_map.
  - intros i p Hi Hid. exists (PresetManager.spread p updates).
    split; [|apply spread_merged].
    change (map (PresetManager.update_one id updates) (PresetManager.presets m))
      with (PresetManager.update_one id updates <$> PresetManager.presets m).
    rewrite list_lookup_fmap, Hi. cbn.
    rewrite update_one_match by exact Hid. reflexivity.
  - intros i p Hi Hid.
    change (map (PresetManager.update_one id updates) (PresetManager.presets m))
      with (PresetManager.update_one id updates <$> PresetManager.presets m).
    rewrite list_lookup_fmap, Hi. cbn.
    rewrite update_one_other by exact Hid. reflexivity.
  - apply map_update_one_absent.
Qed.

Lemma updatePreset_frame_witness :
  let l := PresetManager.presets Samples.manager in
  let l' :=
    PresetManager.presets
      (PresetManager.updatePreset Samples.manager "3" Samples.widen true) in
  length l' = 4%nat /\
  l' !! 0%nat = Some Samples.square /\
  l' !! 2%nat
  = Some (SizePreset.mk "3" 1300 630 "Facebook/Twitter" true) /\
  PresetManager.presets
    (PresetManager.updatePreset Samples.manager "9" Samples.widen true) = l.
Proof.
  pose proof (updatePreset_frame Samples.manager "3" Samples.widen true)
    as (Hlen & Hmatch & Hother & _).
  pose proof (updatePreset_frame Samples.manager "9" Samples.widen true)
    as (_ & _ & _ & Habsent).
  cbv zeta in *.
  split_and!.
  - rewrite Hlen. reflexivity.
  - apply Hother; [reflexivity | intros H; vm_compute in H; discriminate H].
  - destruct (Hmatch 2%nat Samples.facebook eq_refl eq_refl)
      as (q & Hq & _). rewrite Hq. vm_compute in Hq.
    injection Hq as <-. reflexivity.
  - apply Habsent. intros p Hp.
    change (PresetManager.presets Samples.manager)
      with PresetManager.getDefaultPresets in Hp.
    unfold PresetManager.getDefaultPresets in Hp.
    repeat match goal with
    | H : _ ∈ _ :: _ |- _ =>
        apply elem_of_cons in H; destruct H as [->|H]
    | H : _ ∈ [] |- _ => apply elem_of_nil in H; destruct H
    end; intros H; vm_compute in H; discriminate H.
Defined.

(** ** The batch export *)

Section Batch.

Import BatchProcessor.

Variable Blob : Type.
Variable getContext : SizePreset.t -> bool.
Variable drawAndEncode :
  Image.t -> CropRect.t -> SizePreset.t -> Format -> Q -> Settled (option Blob).
Variable schedule :
  list (SizePreset.t * Settled (option Blob)) ->
  list (SizePreset.t * Settled (option Blob)).
Hypothesis schedule_perm : forall tasks, schedule tasks ≡ₚ tasks.

Variable image : Image.t.
Variable userCrop : CropRect.t.
Variable format : Format.
Variable quality : Q.

Let gen (preset : SizePreset.t) : Settled (option Blob) :=
  generateImage Blob getContext drawAndEncode image userCrop preset format
    quality.

Let add := addFile Blob format.

(** An entry of the folder comes from the folder as it was or from a task
    that produced a blob. *)
Lemma foldl_addFile_lookup
    (tasks : list (SizePreset.t * Settled (option Blob)))
    (zip : gmap string Blob) (key : string) (blob : Blob) :
  foldl add zip tasks !! key = Some blob ->
  zip !! key = Some blob \/
  exists preset, (preset, Fulfilled (Some blob)) ∈ tasks /\
                 key = path preset format.
Proof.
  revert zip. induction tasks as [|[preset outcome] tasks IH]; intros zip H.
  - left. exact H.
  - cbn [foldl] in H. apply IH in H as [H | (p & Hp & Hk)].
    + destruct outcome as [[b|]|]; cbn in H.
      * apply lookup_insert_Some in H as [[<- <-] | [_ H]].
        -- right. exists preset. split; [left | reflexivity].
        -- left. exact H.
      * left. exact H.
      * left. exact H.
    + right. exists p. split; [right; exact Hp | exact Hk].
Qed.

(** Tasks never remove an entry. *)
Lemma foldl_addFile_keeps
    (tasks : list (SizePreset.t * Settled (option Blob)))
    (zip : gmap string Blob) (key : string) :
  is_Some (zip !! key) -> is_Some (foldl add zip tasks !! key).
Proof.
  revert zip. induction tasks as [|[preset outcome] tasks IH]; intros zip H.
  - exact H.
  - cbn [foldl]. apply IH.
    destruct outcome as [[b|]|]; cbn; [|exact H|exact H].
    apply lookup_insert_is_Some'. right. exact H.
Qed.

(** A task that produced a blob leaves an entry under its path. *)
Lemma foldl_addFile_adds
    (tasks : list (SizePreset.t * Settled (option Blob)))
    (zip : gmap string Blob) (preset : SizePreset.t) (blob : Blob) :
  (preset, Fulfilled (Some blob)) ∈ tasks ->
  is_Some (foldl add zip tasks !! path preset format).
Proof.
  revert zip. induction tasks as [|task tasks IH]; intros zip H.
  - apply elem_of_nil in H. destruct H.
  - apply elem_of_cons in H as [<- | H].
    + cbn [foldl]. apply foldl_addFile_keeps. cbn.
      rewrite lookup_insert_eq. eexists. reflexivity.
    + cbn [foldl]. apply IH. exact H.
Qed.

Variable presets : list SizePreset.t.

Let promises := map (fun preset => (preset, gen preset)) presets.

Lemma elem_of_promises (preset : SizePreset.t)
    (outcome : Settled (option Blob)) :
  (preset, outcome) ∈ promises <-> preset ∈ presets /\ outcome = gen preset.
Proof.
  subst promises. change (map ?f ?l) with (f <$> l).
  rewrite list_elem_of_fmap. split.
  - intros (p & [= -> ->] & Hp). split; [exact Hp | reflexivity].
  - intros (Hp & ->). exists preset. split; [reflexivity | exact Hp].
Qed.

Lemma no_raise_no_rejection :
  Forall (fun preset => gen preset <> Rejected) presets ->
  existsb (fun task => is_rejected (snd task)) promises = false.
Proof.
  subst promises. induction 1 as [|p l Hp _ IH]; [reflexivity|].
  cbn [map existsb snd]. rewrite IH, orb_false_r.
  destruct (gen p); [reflexivity | congruence].
Qed.

Lemma raise_is_rejection :
  Exists (fun preset => gen preset = Rejected) presets ->
  existsb (fun task => is_rejected (snd task)) promises = true.
Proof.
  subst promises. induction 1 as [p l Hp | p l _ IH].
  - cbn [map existsb snd]. rewrite Hp. reflexivity.
  - cbn [map existsb snd]. rewrite IH. apply orb_true_r.
Qed.

(** When some generation raises, [Promise.all] rejects and so does
    [process]: no archive is generated. *)
Lemma process_rejected_on_raise :
  Exists (fun preset => gen preset = Rejected) presets ->
  process Blob getContext drawAndEncode schedule image userCrop presets
    format quality = Rejected.
Proof.
  intros H.
  change (process Blob getContext drawAndEncode schedule image userCrop
            presets format quality)
    with (if existsb (fun task => is_rejected (snd task)) promises
          then Rejected
          else Fulfilled (foldl add ∅ (schedule promises))).
  rewrite (raise_is_rejection H). reflexivity.
Qed.

Lemma process_fulfilled_without_raise :
  Forall (fun preset => gen preset <> Rejected) presets ->
  process Blob getContext drawAndEncode schedule image userCrop presets
    format quality
  = Fulfilled (foldl add ∅ (schedule promises)).
Proof.
  intros H.
  change (process Blob getContext drawAndEncode schedule image userCrop
            presets format quality)
    with (if existsb (fun task => is_rejected (snd task)) promises
          then Rejected
          else Fulfilled (foldl add ∅ (schedule promises))).
  rewrite (no_raise_no_rejection H). reflexivity.
Qed.

Lemma archive_entry_is_output (key : string) (blob : Blob) :
  foldl add ∅ (schedule promises) !! key = Some blob ->
  exists preset, preset ∈ presets /\ gen preset = Fulfilled (Some blob) /\
                 key = path preset format.
Proof.
  intros H. apply foldl_addFile_lookup in H as [H | (p & Hp & Hk)].
  - rewrite lookup_empty in H. discriminate H.
  - rewrite schedule_perm in Hp. apply elem_of_promises in Hp as [Hp Hg].
    exists p. split_and!; [exact Hp | symmetry; exact Hg | exact Hk].
Qed.

Lemma archive_has_output (preset : SizePreset.t) (blob : Blob) :
  preset ∈ presets -> gen preset = Fulfilled (Some blob) ->
  is_Some (foldl add ∅ (schedule promises) !! path preset format).
Proof.
  intros Hp Hg. apply (foldl_addFile_adds _ _ preset blob).
  rewrite schedule_perm. apply elem_of_promises. split; [exact Hp|].
  symmetry. exact Hg.
Qed.

End Batch.

(** C7, as the specification states it, fails: with two presets, of which
    the first raises while it is drawn and the second yields a blob, the
    export is rejected as a whole and no archive is produced. *)
Lemma raise_rejects_whole_batch :
  ~ BatchProcessor.batch_isolates_failures nat Samples.getContext
      Samples.drawAndEncode Samples.schedule Samples.image Samples.crop
      [Samples.square; Samples.facebook] jpg 0.9.
Proof.
  intros (zip & H & _). vm_compute in H. discriminate H.
Qed.

(** C7, amended. For every batch export over a list of presets in which
    no generation raises, whatever the order in which the generations
    complete: the batch completes, every entry of the archive is the
    output of a preset whose generation produced a blob, stored under the
    file name of that preset, and every such preset has an entry under its
    file name, which holds its own output unless another successful preset
    has the same file name; a preset whose generation produced no blob
    adds nothing, and nothing records its failure. *)
Theorem process_packages_successes
    (Blob : Type) (getContext : SizePreset.t -> bool)
    (drawAndEncode :
       Image.t -> CropRect.t -> SizePreset.t -> Format -> Q ->
       BatchProcessor.Settled (option Blob))
    (schedule :
       list (SizePreset.t * BatchProcessor.Settled (option Blob)) ->
       list (SizePreset.t * BatchProcessor.Settled (option Blob)))
    (image : Image.t) (userCrop : CropRect.t) (presets : list SizePreset.t)
    (format : Format) (quality : Q) :
  (forall tasks, schedule tasks ≡ₚ tasks) ->
  let gen preset :=
    BatchProcessor.generateImage Blob getContext drawAndEncode image userCrop
      preset format quality in
  let result :=
    BatchProcessor.process Blob getContext drawAndEncode schedule image
      userCrop presets format quality in
  Forall (fun preset => gen preset <> BatchProcessor.Rejected) presets ->
  exists zip : gmap string Blob,
    result = BatchProcessor.Fulfilled zip /\
    (forall key blob,
       zip !! key = Some blob ->
       exists preset,
         preset ∈ presets /\
         gen preset = BatchProcessor.Fulfilled (Some blob) /\
         key = BatchProcessor.path preset format) /\
    (forall preset blob,
       preset ∈ presets ->
       gen preset = BatchProcessor.Fulfilled (Some blob) ->
       is_Some (zip !! BatchProcessor.path preset format) /\
       ((forall preset' blob',
           preset' ∈ presets ->
           gen preset' = BatchProcessor.Fulfilled (Some blob') ->
           BatchProcessor.path preset' format
           = BatchProcessor.path preset format ->
           blob' = blob) ->
        zip !! BatchProcessor.path preset format = Some blob)).
Proof.
  intros Hperm gen result Hok. eexists. split.
  { apply (process_fulfilled_without_raise Blob getContext drawAndEncode
             schedule image userCrop format quality presets Hok). }
  split.
  - intros key blob H.
    apply (archive_entry_is_output Blob getContext drawAndEncode schedule
             Hperm image userCrop format quality presets key blob H).
  - intros preset blob Hin Hgen.
    pose proof (archive_has_output Blob getContext drawAndEncode schedule
                  Hperm image userCrop format quality presets preset blob
                  Hin Hgen) as Hsome.
    split; [exact Hsome|].
    intros Huniq. destruct Hsome as [blob' Hb']. rewrite Hb'. f_equal.
    destruct (archive_entry_is_output Blob getContext drawAndEncode
                schedule Hperm image userCrop format quality presets _ _ Hb')
      as (preset' & Hin' & Hgen' & Hpath).
    apply (Huniq preset' blob' Hin' Hgen'). symmetry. exact Hpath.
Qed.

Lemma process_packages_successes_witness :
  ((forall tasks, Samples.schedule tasks ≡ₚ tasks) /\
   Forall (fun preset =>
             BatchProcessor.generateImage nat Samples.getContext
               Samples.drawAndEncode Samples.image Samples.crop preset jpg 0.9
             <> BatchProcessor.Rejected)
          [Samples.portrait; Samples.facebook]) /\
  exists zip : gmap string nat,
    BatchProcessor.process nat Samples.getContext Samples.drawAndEncode
      Samples.schedule Samples.image Samples.crop
      [Samples.portrait; Samples.facebook] jpg 0.9
    = BatchProcessor.Fulfilled zip /\
    zip !! BatchProcessor.path Samples.facebook jpg = Some 7%nat.
Proof.
  assert (H : forall tasks, Samples.schedule tasks ≡ₚ tasks)
    by (intros tasks; reflexivity).
  assert (Hok : Forall (fun preset =>
                   BatchProcessor.generateImage nat Samples.getContext
                     Samples.drawAndEncode Samples.image Samples.crop preset
                     jpg 0.9
                   <> BatchProcessor.Rejected)
                  [Samples.portrait; Samples.facebook])
    by (repeat constructor; discriminate).
  split; [split; assumption|].
  destruct (process_packages_successes nat Samples.getContext
              Samples.drawAndEncode Samples.schedule Samples.image
              Samples.crop [Samples.portrait; Samples.facebook] jpg 0.9
              H Hok)
    as (zip & Hzip & _ & Hout).
  exists zip. split; [exact Hzip|].
  apply (Hout Samples.facebook 7%nat).
  - right. left.
  - reflexivity.
  - intros preset' blob' Hin Hgen _.
    apply elem_of_cons in Hin as [-> | Hin].
    + discriminate Hgen.
    + apply list_elem_of_singleton in Hin as ->.
      injection Hgen as <-. reflexivity.
Defined.

(** ** The export request *)

Section ExportRequest.

Import UIController.

Lemma onCropChange_originalImage (rects : list CropRect.t) (a : AppState.t) :
  AppState.originalImage (onCropChange a rects) = AppState.originalImage a.
Proof.
  revert a. induction rects as [|r rects IH]; intros a; [reflexivity|].
  unfold onCropChange in *. cbn [foldl]. rewrite IH. reflexivity.
Qed.

Lemma onCropChange_cropRect (rects : list CropRect.t) (a : AppState.t) :
  is_Some (AppState.cropRect a) ->
  is_Some (AppState.cropRect (onCropChange a rects)).
Proof.
  revert a. induction rects as [|r rects IH]; intros a H; [exact H|].
  unfold onCropChange in *. cbn [foldl]. apply IH. cbn. eexists. reflexivity.
Qed.

Lemma new_consistent (stored : option PresetManager.Stored)
    (canvas : Canvas.t) :
  consistent (new stored canvas).
Proof.
  split; cbn.
  - intros [? H]. discriminate H.
  - split; intros [? H]; discriminate H.
Qed.

Lemma onImageLoaded_consistent (s : UIController.t) (img : Image.t)
    (file : File.t) (w h : Q) :
  consistent (onImageLoaded s img file w h).
Proof.
  split; cbn; intros; try split; intros; eexists; reflexivity.
Qed.

Lemma step_consistent (s : UIController.t) (ev : Event) :
  consistent s -> consistent (step s ev).
Proof.
  intros Hs. pose proof Hs as [He Hiff]. destruct ev; cbn [step].
  - apply onImageLoaded_consistent.
  - destruct (AppState.originalImage (appState s)) eqn:Ei;
      destruct (cropEngine s) eqn:Ee; try exact Hs.
    split; cbn [cropEngine appState]; rewrite ?Ei; [|exact Hiff].
    intros _. eexists. reflexivity.
  - split; cbn [cropEngine appState]; [|exact Hiff].
    destruct (cropEngine s); cbn; [intros _; apply He; eexists; reflexivity|].
    intros [? H]; discriminate H.
  - split; cbn [cropEngine appState]; [|exact Hiff].
    destruct (cropEngine s); cbn; [intros _; apply He; eexists; reflexivity|].
    intros [? H]; discriminate H.
  - destruct (cropEngine s) as [en|] eqn:Ee; [|exact Hs].
    destruct (CropEngine.handleMouseMove en e) as [en' rects].
    assert (Himg : is_Some (AppState.originalImage (appState s)))
      by (apply He; eexists; reflexivity).
    split; cbn [cropEngine appState].
    + intros _. rewrite onCropChange_originalImage. exact Himg.
    + rewrite onCropChange_originalImage. split; [|intros _; exact Himg].
      intros _. apply onCropChange_cropRect. apply Hiff. exact Himg.
  - split; cbn [cropEngine appState]; [|exact Hiff].
    destruct (cropEngine s); cbn; [intros _; apply He; eexists; reflexivity|].
    intros [? H]; discriminate H.
  - split; cbn [cropEngine appState]; [|exact Hiff].
    destruct (cropEngine s); cbn; [intros _; apply He; eexists; reflexivity|].
    intros [? H]; discriminate H.
  - split; assumption.
  - split; assumption.
  - split; assumption.
  - split; assumption.
  - split; assumption.
Qed.

Lemma run_consistent (evs : list Event) (s : UIController.t) :
  consistent s -> consistent (run s evs).
Proof.
  revert s. induction evs as [|ev evs IH]; intros s H; [exact H|].
  unfold run in *. cbn [foldl]. apply IH. apply step_consistent. exact H.
Qed.

Variable Blob : Type.
Variable getContext : SizePreset.t -> bool.
Variable drawAndEncode :
  Image.t -> CropRect.t -> SizePreset.t -> Format -> Q ->
  BatchProcessor.Settled (option Blob).
Variable schedule :
  list (SizePreset.t * BatchProcessor.Settled (option Blob)) ->
  list (SizePreset.t * BatchProcessor.Settled (option Blob)).

Let download := handleDownload Blob getContext drawAndEncode schedule.

Lemma handleDownload_without_crop (s : UIController.t) :
  AppState.cropRect (appState s) = None ->
  refused Blob (download s) /\ existsb (is_process Blob) (download s) = false.
Proof.
  intros H. subst download. unfold refused, handleDownload. rewrite H.
  destruct (AppState.originalImage (appState s)); split; reflexivity.
Qed.

Lemma handleDownload_with_crop (s : UIController.t) :
  consistent s ->
  AppState.cropRect (appState s) <> None ->
  ~ refused Blob (download s) /\ existsb (is_process Blob) (download s) = true.
Proof.
  intros [_ Hiff] H. subst download. unfold refused, handleDownload.
  destruct (AppState.cropRect (appState s)) as [crop|] eqn:Ec; [|congruence].
  destruct (proj2 Hiff) as [img Hi]; [eexists; reflexivity|].
  rewrite Hi. split; [intros H'; discriminate H' | reflexivity].
Qed.

End ExportRequest.

(** C8. In every state the application reaches from its start by any
    sequence of events, an export request made while no crop rectangle is
    defined is refused: [handleDownload] shows the alert and does nothing
    else, so that the batch processor is not invoked; and an export
    request made while a crop rectangle is defined is not refused: the
    batch processor is invoked. *)
Theorem export_refused_exactly_without_crop
    (Blob : Type) (getContext : SizePreset.t -> bool)
    (drawAndEncode :
       Image.t -> CropRect.t -> SizePreset.t -> Format -> Q ->
       BatchProcessor.Settled (option Blob))
    (schedule :
       list (SizePreset.t * BatchProcessor.Settled (option Blob)) ->
       list (SizePreset.t * BatchProcessor.Settled (option Blob)))
    (stored : option PresetManager.Stored) (canvas : Canvas.t)
    (events : list UIController.Event) :
  let s := UIController.run (UIController.new stored canvas) events in
  let trace :=
    UIController.handleDownload Blob getContext drawAndEncode schedule s in
  (AppState.cropRect (UIController.appState s) = None ->
   UIController.refused Blob trace /\
   existsb (UIController.is_process Blob) trace = false) /\
  (AppState.cropRect (UIController.appState s) <> None ->
   ~ UIController.refused Blob trace /\
   existsb (UIController.is_process Blob) trace = true).
Proof.
  intros s trace. split.
  - apply handleDownload_without_crop.
  - apply handleDownload_with_crop. apply run_consistent.
    apply new_consistent.
Qed.

(** * Further properties of the code *)

(** ** Loading an image and fitting it *)

(** X1. [setImage], for an image of positive size: the camera is reset,
    the new crop rectangle is reported once, and it is the square of side
    0.8 times the smaller image dimension, centred on the image and inside
    it; it satisfies the invariants of the crop rectangle as soon as the
    smaller dimension is at least 12.5. *)
Theorem setImage_default_crop (st : CropEngine.t) (img : Image.t) :
  0 < Image.width img -> 0 < Image.height img ->
  exists r : CropRect.t,
    CropEngine.setImage st img
    = (CropEngine.mk (CropEngine.canvas st) (Some img) (Some r)
         (CropEngine.isDragging st) (CropEngine.dragStart st)
         (CropEngine.dragMode st) (CropEngine.mkView 1 0 0), [r]) /\
    CropRect.width r == 0.8 * Qmin (Image.width img) (Image.height img) /\
    CropRect.height r == CropRect.width r /\
    CropRect.x r + CropRect.width r / 2 == Image.width img / 2 /\
    CropRect.y r + CropRect.height r / 2 == Image.height img / 2 /\
    0 <= CropRect.x r /\ 0 <= CropRect.y r /\
    CropRect.x r + CropRect.width r <= Image.width img /\
    CropRect.y r + CropRect.height r <= Image.height img /\
    (12.5 <= Qmin (Image.width img) (Image.height img) ->
     CropEngine.crop_inv img r).
Proof.
  intros Hw Hh. eexists. split; [reflexivity|].
  unfold CropEngine.crop_inv.
  cbn [CropRect.x CropRect.y CropRect.width CropRect.height].
  unfold Qdiv. change (/ 2) with (1 # 2).
  split_minmax; split_and!; try (intros ?; split_and!); lra.
Qed.

Lemma setImage_default_crop_witness :
  (0 < Image.width Samples.image /\ 0 < Image.height Samples.image) /\
  exists r : CropRect.t,
    CropEngine.cropRect (fst (CropEngine.setImage Samples.loaded Samples.image))
    = Some r /\
    CropRect.width r == 800 /\ CropEngine.crop_inv Samples.image r.
Proof.
  assert (H1 : 0 < Image.width Samples.image) by reflexivity.
  assert (H2 : 0 < Image.height Samples.image) by reflexivity.
  split; [auto|].
  destruct (setImage_default_crop Samples.loaded Samples.image H1 H2)
    as (r & Hr & Hsize & _ & _ & _ & _ & _ & _ & _ & Hinv).
  exists r. split; [rewrite Hr; reflexivity|]. split.
  - rewrite Hsize. by_computation.
  - apply Hinv. by_computation.
Defined.

(** X2. [getBaseScale], for an image of positive size on a canvas larger
    than the two margins of 40: the scale is positive, the scaled image
    fits into the canvas less the margins, and it fills that area in one
    of the two directions. *)
Theorem getBaseScale_fits (st : CropEngine.t) (img : Image.t) :
  CropEngine.image st = Some img ->
  0 < Image.width img -> 0 < Image.height img ->
  80 < Canvas.width (CropEngine.canvas st) ->
  80 < Canvas.height (CropEngine.canvas st) ->
  let s := CropEngine.getBaseScale st in
  0 < s /\
  Image.width img * s <= Canvas.width (CropEngine.canvas st) - 80 /\
  Image.height img * s <= Canvas.height (CropEngine.canvas st) - 80 /\
  (Image.width img * s == Canvas.width (CropEngine.canvas st) - 80 \/
   Image.height img * s == Canvas.height (CropEngine.canvas st) - 80).
Proof.
  intros Himg Hw Hh Hcw Hch s.
  assert (Hpos : 0 < s) by (apply (getBaseScale_pos st img Himg Hw Hh)).
  split; [exact Hpos|]. subst s. unfold CropEngine.getBaseScale in *.
  rewrite Himg in *. cbv zeta in *.
  destruct (Qle_bool (Canvas.width (CropEngine.canvas st) - 40 * 2) 0) eqn:Ew.
  { apply Qle_bool_iff in Ew. lra. }
  destruct (Qle_bool (Canvas.height (CropEngine.canvas st) - 40 * 2) 0) eqn:Eh.
  { apply Qle_bool_iff in Eh. lra. }
  cbn [orb] in *.
  set (w := Canvas.width (CropEngine.canvas st) - 40 * 2) in *.
  set (h := Canvas.height (CropEngine.canvas st) - 40 * 2) in *.
  assert (Ha : Image.width img * (w / Image.width img) == w) by (field; lra).
  assert (Hb : Image.height img * (h / Image.height img) == h) by (field; lra).
  assert (Hw80 : w == Canvas.width (CropEngine.canvas st) - 80)
    by (subst w; ring).
  assert (Hh80 : h == Canvas.height (CropEngine.canvas st) - 80)
    by (subst h; ring).
  rewrite <- Hw80, <- Hh80.
  destruct (Math_min_cases (w / Image.width img) (h / Image.height img))
    as [[Hlt Hm] | [Hle Hm]]; rewrite Hm.
  - split_and!; [lra | nra | left; exact Ha].
  - split_and!; [nra | lra | right; exact Hb].
Qed.

Lemma getBaseScale_fits_witness :
  (CropEngine.image Samples.loaded = Some Samples.image /\
   0 < Image.width Samples.image /\ 0 < Image.height Samples.image /\
   80 < Canvas.width (CropEngine.canvas Samples.loaded) /\
   80 < Canvas.height (CropEngine.canvas Samples.loaded)) /\
  Image.width Samples.image * CropEngine.getBaseScale Samples.loaded
  <= Canvas.width (CropEngine.canvas Samples.loaded) - 80.
Proof.
  assert (H0 : CropEngine.image Samples.loaded = Some Samples.image)
    by reflexivity.
  assert (H1 : 0 < Image.width Samples.image) by reflexivity.
  assert (H2 : 0 < Image.height Samples.image) by reflexivity.
  assert (H3 : 80 < Canvas.width (CropEngine.canvas Samples.loaded))
    by reflexivity.
  assert (H4 : 80 < Canvas.height (CropEngine.canvas Samples.loaded))
    by reflexivity.
  split; [auto 10|].
  exact (proj1 (proj2 (getBaseScale_fits Samples.loaded Samples.image
                         H0 H1 H2 H3 H4))).
Defined.

(** X3. For an engine that holds an image, with a positive base scale and
    a positive zoom, mapping a canvas point to image space with
    [canvasToImage] and back with [imageToCanvas] returns the point. *)
Theorem imageToCanvas_canvasToImage
    (st : CropEngine.t) (img : Image.t) (x y : Q) :
  CropEngine.image st = Some img ->
  0 < CropEngine.getBaseScale st ->
  0 < CropEngine.zoom (CropEngine.view st) ->
  let p := CropEngine.canvasToImage st x y in
  Point.x (CropEngine.imageToCanvas st (Point.x p) (Point.y p)) == x /\
  Point.y (CropEngine.imageToCanvas st (Point.x p) (Point.y p)) == y.
Proof.
  intros Himg Hb Hz p. subst p.
  unfold CropEngine.canvasToImage, CropEngine.imageToCanvas. rewrite Himg.
  cbn [Point.x Point.y]. split; field; split; lra.
Qed.

Lemma imageToCanvas_canvasToImage_witness :
  (CropEngine.image Samples.loaded = Some Samples.image /\
   0 < CropEngine.getBaseScale Samples.loaded /\
   0 < CropEngine.zoom (CropEngine.view Samples.loaded)) /\
  Point.x (CropEngine.imageToCanvas Samples.loaded
             (Point.x (CropEngine.canvasToImage Samples.loaded 600 500))
             (Point.y (CropEngine.canvasToImage Samples.loaded 600 500)))
  == 600.
Proof.
  assert (H0 : CropEngine.image Samples.loaded = Some Samples.image)
    by reflexivity.
  assert (H1 : 0 < CropEngine.getBaseScale Samples.loaded) by by_computation.
  assert (H2 : 0 < CropEngine.zoom (CropEngine.view Samples.loaded))
    by reflexivity.
  split; [auto|].
  exact (proj1 (imageToCanvas_canvasToImage Samples.loaded Samples.image
                  600 500 H0 H1 H2)).
Defined.

(** ** Starting and ending a gesture *)

Lemma Qabs_lt_cases (t b : Q) : Qabs t < b <-> - b < t /\ t < b.
Proof. apply Qabs_Qlt_condition. Qed.

Lemma Qabs_ge_cases (t b : Q) : b <= Qabs t -> b <= t \/ t <= - b.
Proof.
  intros H. destruct (Qlt_le_dec t 0) as [Hneg | Hpos].
  - right. rewrite Qabs_neg in H by lra. lra.
  - left. rewrite Qabs_pos in H by lra. exact H.
Qed.

(** Decides the comparisons of a hit test: every [Qlt_bool] of the goal is
    split into its two cases, which become inequalities. *)
Ltac split_comparisons :=
  repeat match goal with
  | |- context [Qlt_bool ?a ?b] =>
      let E := fresh "E" in
      destruct (Qlt_bool a b) eqn:E;
      [apply Qlt_bool_true in E | apply Qlt_bool_false in E];
      cbn [andb orb negb]
  end;
  repeat match goal with
  | H : Qabs _ < _ |- _ => apply Qabs_lt_cases in H; destruct H
  | H : _ <= Qabs _ |- _ => apply Qabs_ge_cases in H; destruct H
  end.

(** [lra], with the halves [a / 2] of the hypotheses made products. *)
Ltac lra_halves :=
  unfold Qdiv in *; change (/ 2) with (1 # 2) in *; lra.

Section MouseDown.

Import CropEngine.

Variable st : CropEngine.t.
Variable img : Image.t.
Variable r : CropRect.t.
Variable e : MouseEvent.
Hypothesis Himage : image st = Some img.
Hypothesis Hcrop : cropRect st = Some r.

(** The projection of the crop rectangle on the canvas: its top left
    corner and its size. *)
Let cTL := imageToCanvas st (CropRect.x r) (CropRect.y r).
Let cBR :=
  imageToCanvas st (CropRect.x r + CropRect.width r)
    (CropRect.y r + CropRect.height r).
Let cx := Point.x cTL.
Let cy := Point.y cTL.
Let cw := Point.x cBR - Point.x cTL.
Let ch := Point.y cBR - Point.y cTL.
Let mouse := getMouseCanvasPos st e.

Lemma handleMouseDown_fields :
  exists mode,
    handleMouseDown st e
    = mk (canvas st) (image st) (cropRect st) true
         (Some (Point.mk (Point.x mouse) (Point.y mouse))) (Some mode)
         (view st).
Proof.
  unfold handleMouseDown. rewrite Himage, Hcrop. eexists. reflexivity.
Qed.

Lemma handleMouseDown_tl :
  Render.inSquare (cx - 8 / 2) (cy - 8 / 2) 8 mouse ->
  dragMode (handleMouseDown st e) = Some resize_tl.
Proof.
  unfold Render.inSquare. subst cx cy cw ch. intros [[? ?] [? ?]].
  unfold handleMouseDown. rewrite Himage, Hcrop. cbv zeta beta.
  fold mouse. fold cTL. fold cBR. cbn [dragMode].
  split_comparisons; first [reflexivity | lra_halves].
Qed.

Lemma handleMouseDown_tr :
  16 <= cw -> 16 <= ch ->
  Render.inSquare (cx + cw - 8 / 2) (cy - 8 / 2) 8 mouse ->
  dragMode (handleMouseDown st e) = Some resize_tr.
Proof.
  unfold Render.inSquare. subst cx cy cw ch. intros ? ? [[? ?] [? ?]].
  unfold handleMouseDown. rewrite Himage, Hcrop. cbv zeta beta.
  fold mouse. fold cTL. fold cBR. cbn [dragMode].
  split_comparisons; first [reflexivity | lra_halves].
Qed.

Lemma handleMouseDown_bl :
  16 <= cw -> 16 <= ch ->
  Render.inSquare (cx - 8 / 2) (cy + ch - 8 / 2) 8 mouse ->
  dragMode (handleMouseDown st e) = Some resize_bl.
Proof.
  unfold Render.inSquare. subst cx cy cw ch. intros ? ? [[? ?] [? ?]].
  unfold handleMouseDown. rewrite Himage, Hcrop. cbv zeta beta.
  fold mouse. fold cTL. fold cBR. cbn [dragMode].
  split_comparisons; first [reflexivity | lra_halves].
Qed.

Lemma handleMouseDown_br :
  16 <= cw -> 16 <= ch ->
  Render.inSquare (cx + cw - 8 / 2) (cy + ch - 8 / 2) 8 mouse ->
  dragMode (handleMouseDown st e) = Some resize_br.
Proof.
  unfold Render.inSquare. subst cx cy cw ch. intros ? ? [[? ?] [? ?]].
  unfold handleMouseDown. rewrite Himage, Hcrop. cbv zeta beta.
  fold mouse. fold cTL. fold cBR. cbn [dragMode].
  split_comparisons; first [reflexivity | lra_halves].
Qed.

Lemma handleMouseDown_body :
  cx + 12 <= Point.x mouse <= cx + cw - 12 ->
  cy < Point.y mouse < cy + ch ->
  dragMode (handleMouseDown st e) = Some move.
Proof.
  subst cx cy cw ch. intros [? ?] [? ?].
  unfold handleMouseDown. rewrite Himage, Hcrop. cbv zeta beta.
  fold mouse. fold cTL. fold cBR. cbn [dragMode].
  split_comparisons; first [reflexivity | lra_halves].
Qed.

Lemma handleMouseDown_background :
  0 <= cw ->
  Point.x mouse <= cx - 12 \/ cx + cw + 12 <= Point.x mouse ->
  dragMode (handleMouseDown st e) = Some pan.
Proof.
  subst cx cy cw ch. intros ? Hout.
  unfold handleMouseDown. rewrite Himage, Hcrop. cbv zeta beta.
  fold mouse. fold cTL. fold cBR. cbn [dragMode].
  split_comparisons; first [reflexivity | lra_halves].
Qed.

Lemma render_draws_handles :
  Render.fillRect (cx - 8 / 2) (cy - 8 / 2) 8 8 ∈ Render.render true st /\
  Render.fillRect (cx + cw - 8 / 2) (cy - 8 / 2) 8 8 ∈ Render.render true st /\
  Render.fillRect (cx - 8 / 2) (cy + ch - 8 / 2) 8 8 ∈ Render.render true st /\
  Render.fillRect (cx + cw - 8 / 2) (cy + ch - 8 / 2) 8 8
    ∈ Render.render true st.
Proof.
  unfold Render.render. rewrite Himage, Hcrop. cbv zeta. cbn [negb].
  fold cTL. fold cBR. fold cx. fold cy. fold cw. fold ch.
  split_and!; rewrite !elem_of_app, !elem_of_cons; tauto.
Qed.

End MouseDown.

(** X4. [handleMouseDown] on an engine without an image or without a crop
    rectangle changes nothing; on an engine with both it starts a gesture
    on the crop rectangle, recording the canvas position of the pointer,
    and leaves the image, the crop rectangle, the camera and the canvas as
    they are, so that the guard of [handleMouseMove] passes. *)
Theorem handleMouseDown_starts_gesture
    (st : CropEngine.t) (e : CropEngine.MouseEvent) :
  let st' := CropEngine.handleMouseDown st e in
  (CropEngine.image st = None \/ CropEngine.cropRect st = None -> st' = st) /\
  (forall img r,
     CropEngine.image st = Some img -> CropEngine.cropRect st = Some r ->
     (exists mode, CropEngine.gesture st' r mode) /\
     CropEngine.dragStart st'
     = Some (Point.mk (Point.x (CropEngine.getMouseCanvasPos st e))
                      (Point.y (CropEngine.getMouseCanvasPos st e))) /\
     CropEngine.image st' = Some img /\
     CropEngine.view st' = CropEngine.view st /\
     CropEngine.canvas st' = CropEngine.canvas st).
Proof.
  intros st'. subst st'. split.
  - unfold CropEngine.handleMouseDown.
    intros [H | H]; rewrite H; [reflexivity|].
    destruct (CropEngine.image st); reflexivity.
  - intros img r Himg Hr.
    destruct (handleMouseDown_fields st img r e Himg Hr) as [mode Hmode].
    rewrite Hmode. cbn. split_and!; try reflexivity; try assumption.
    exists mode. unfold CropEngine.gesture. cbn.
    split_and!; [reflexivity | exact Hr | reflexivity | discriminate].
Qed.

Lemma handleMouseDown_starts_gesture_witness :
  exists mode,
    CropEngine.gesture
      (CropEngine.handleMouseDown Samples.loaded Samples.inside)
      (CropRect.mk ((2000 - Qmin 2000 1000 * 0.8) / 2)
                   ((1000 - Qmin 2000 1000 * 0.8) / 2)
                   (Qmin 2000 1000 * 0.8) (Qmin 2000 1000 * 0.8))
      mode.
Proof.
  exact (proj1 (proj2 (handleMouseDown_starts_gesture Samples.loaded
                         Samples.inside)
                  Samples.image _ eq_refl eq_refl)).
Defined.

(** X5. The four handle squares [render] draws can be grabbed: [render]
    paints a square of side 8 centred on each corner of the crop rectangle
    as shown on the canvas; a mouse down within the top left square starts
    a resize from tl, and, when the crop rectangle is shown at least 16
    wide and 16 high, a mouse down within each of the three other squares
    starts a resize from that corner. *)
Theorem drawn_handles_start_resize
    (st : CropEngine.t) (img : Image.t) (r : CropRect.t)
    (e : CropEngine.MouseEvent) :
  CropEngine.image st = Some img -> CropEngine.cropRect st = Some r ->
  let cTL := CropEngine.imageToCanvas st (CropRect.x r) (CropRect.y r) in
  let cBR :=
    CropEngine.imageToCanvas st (CropRect.x r + CropRect.width r)
      (CropRect.y r + CropRect.height r) in
  let cx := Point.x cTL in
  let cy := Point.y cTL in
  let cw := Point.x cBR - Point.x cTL in
  let ch := Point.y cBR - Point.y cTL in
  let mouse := CropEngine.getMouseCanvasPos st e in
  let mode := CropEngine.dragMode (CropEngine.handleMouseDown st e) in
  (Render.fillRect (cx - 8 / 2) (cy - 8 / 2) 8 8 ∈ Render.render true st /\
   Render.fillRect (cx + cw - 8 / 2) (cy - 8 / 2) 8 8
     ∈ Render.render true st /\
   Render.fillRect (cx - 8 / 2) (cy + ch - 8 / 2) 8 8
     ∈ Render.render true st /\
   Render.fillRect (cx + cw - 8 / 2) (cy + ch - 8 / 2) 8 8
     ∈ Render.render true st) /\
  (Render.inSquare (cx - 8 / 2) (cy - 8 / 2) 8 mouse ->
   mode = Some CropEngine.resize_tl) /\
  (16 <= cw -> 16 <= ch ->
   (Render.inSquare (cx + cw - 8 / 2) (cy - 8 / 2) 8 mouse ->
    mode = Some CropEngine.resize_tr) /\
   (Render.inSquare (cx - 8 / 2) (cy + ch - 8 / 2) 8 mouse ->
    mode = Some CropEngine.resize_bl) /\
   (Render.inSquare (cx + cw - 8 / 2) (cy + ch - 8 / 2) 8 mouse ->
    mode = Some CropEngine.resize_br)).
Proof.
  intros Himg Hr cTL cBR cx cy cw ch mouse mode. split_and!.
  - apply (render_draws_handles st img r Himg Hr).
  - apply (render_draws_handles st img r Himg Hr).
  - apply (render_draws_handles st img r Himg Hr).
  - apply (render_draws_handles st img r Himg Hr).
  - apply (handleMouseDown_tl st img r e Himg Hr).
  - intros Hw Hh. split_and!.
    + apply (handleMouseDown_tr st img r e Himg Hr Hw Hh).
    + apply (handleMouseDown_bl st img r e Himg Hr Hw Hh).
    + apply (handleMouseDown_br st img r e Himg Hr Hw Hh).
Qed.

(** X6. A mouse down on the canvas at least 12 to the right of the left
    edge and 12 to the left of the right edge of the crop rectangle as
    shown, and strictly between its top and bottom edges, starts a move; a
    mouse down at least 12 to the left or to the right of a crop rectangle
    shown with a width that is not negative starts a pan. *)
Theorem handleMouseDown_body_or_background
    (st : CropEngine.t) (img : Image.t) (r : CropRect.t)
    (e : CropEngine.MouseEvent) :
  CropEngine.image st = Some img -> CropEngine.cropRect st = Some r ->
  let cTL := CropEngine.imageToCanvas st (CropRect.x r) (CropRect.y r) in
  let cBR :=
    CropEngine.imageToCanvas st (CropRect.x r + CropRect.width r)
      (CropRect.y r + CropRect.height r) in
  let mouse := CropEngine.getMouseCanvasPos st e in
  let mode := CropEngine.dragMode (CropEngine.handleMouseDown st e) in
  (Point.x cTL + 12 <= Point.x mouse <= Point.x cBR - 12 ->
   Point.y cTL < Point.y mouse < Point.y cBR ->
   mode = Some CropEngine.move) /\
  (Point.x cTL <= Point.x cBR ->
   Point.x mouse <= Point.x cTL - 12 \/ Point.x cBR + 12 <= Point.x mouse ->
   mode = Some CropEngine.pan).
Proof.
  intros Himg Hr cTL cBR mouse mode. split.
  - intros [Hx0 Hx1] [Hy0 Hy1].
    apply (handleMouseDown_body st img r e Himg Hr); fold cTL cBR mouse;
      split; lra.
  - intros Hw Hout.
    apply (handleMouseDown_background st img r e Himg Hr); fold cTL cBR mouse;
      [lra | destruct Hout; [left | right]; lra].
Qed.

Lemma drawn_handles_start_resize_witness :
  (CropEngine.image Samples.loaded = Some Samples.image /\
   exists r, CropEngine.cropRect Samples.loaded = Some r) /\
  CropEngine.dragMode
    (CropEngine.handleMouseDown Samples.loaded (CropEngine.mkMouse 603 498))
  = Some CropEngine.resize_br.
Proof.
  assert (H0 : CropEngine.image Samples.loaded = Some Samples.image)
    by reflexivity.
  split; [split; [exact H0 | eexists; reflexivity]|].
  destruct (drawn_handles_start_resize Samples.loaded Samples.image _
              (CropEngine.mkMouse 603 498) H0 eq_refl)
    as (_ & _ & Hrest).
  apply Hrest; [by_computation | by_computation |].
  unfold Render.inSquare. split; split; by_computation.
Defined.

Lemma handleMouseDown_body_or_background_witness :
  (CropEngine.image Samples.loaded = Some Samples.image /\
   exists r, CropEngine.cropRect Samples.loaded = Some r) /\
  CropEngine.dragMode
    (CropEngine.handleMouseDown Samples.loaded (CropEngine.mkMouse 440 340))
  = Some CropEngine.move /\
  CropEngine.dragMode
    (CropEngine.handleMouseDown Samples.loaded (CropEngine.mkMouse 100 340))
  = Some CropEngine.pan.
Proof.
  assert (H0 : CropEngine.image Samples.loaded = Some Samples.image)
    by reflexivity.
  split; [split; [exact H0 | eexists; reflexivity]|]. split.
  - apply (proj1 (handleMouseDown_body_or_background Samples.loaded
                    Samples.image _ (CropEngine.mkMouse 440 340) H0 eq_refl));
      split; by_computation.
  - apply (proj2 (handleMouseDown_body_or_background Samples.loaded
                    Samples.image _ (CropEngine.mkMouse 100 340) H0 eq_refl));
      [by_computation | left; by_computation].
Defined.

(** X7. [handleMouseUp] ends the gesture: it leaves the image, the crop
    rectangle, the camera and the canvas as they are, and a
    [handleMouseMove] that follows changes nothing and reports no crop
    rectangle, wherever the pointer is. *)
Theorem handleMouseUp_ends_gesture
    (st : CropEngine.t) (e : CropEngine.MouseEvent) :
  let st' := CropEngine.handleMouseUp st in
  CropEngine.handleMouseMove st' e = (st', []) /\
  CropEngine.image st' = CropEngine.image st /\
  CropEngine.cropRect st' = CropEngine.cropRect st /\
  CropEngine.view st' = CropEngine.view st /\
  CropEngine.canvas st' = CropEngine.canvas st /\
  CropEngine.isDragging st' = false /\
  CropEngine.dragMode st' = None /\ CropEngine.dragStart st' = None.
Proof.
  intros st'. split_and!; reflexivity.
Qed.

(** ** Panning *)

Section Pan.

Import CropEngine.

Variable st : CropEngine.t.
Variable img : Image.t.
Variable r : CropRect.t.
Variable ds : Point.t.
Hypothesis Hdrag : isDragging st = true.
Hypothesis Himage : image st = Some img.
Hypothesis Hcrop : cropRect st = Some r.
Hypothesis Hmode : dragMode st = Some pan.
Hypothesis Hstart : dragStart st = Some ds.


End Pan.





(** ** Moving and resizing *)

Section Move.

Import CropEngine.

Variable st : CropEngine.t.
Variable img : Image.t.
Variable r : CropRect.t.
Variable ds : Point.t.
Variable e : MouseEvent.
Hypothesis Hgeo : finite_geometry st img.
Hypothesis Hdrag : isDragging st = true.
Hypothesis Hcrop : cropRect st = Some r.
Hypothesis Hmode : dragMode st = Some move.
Hypothesis Hstart : dragStart st = Some ds.

Let mouse := getMouseCanvasPos st e.
Let dx :=
  Point.x (canvasToImage st (Point.x mouse) (Point.y mouse))
  - Point.x (canvasToImage st (Point.x ds) (Point.y ds)).
Let dy :=
  Point.y (canvasToImage st (Point.x mouse) (Point.y mouse))
  - Point.y (canvasToImage st (Point.x ds) (Point.y ds)).

Lemma handleMouseMove_move_fields :
  handleMouseMove st e
  = (mk (canvas st) (Some img) (Some (moveRect img r dx dy)) true
        (Some (Point.mk (Point.x mouse) (Point.y mouse))) (Some move)
        (view st),
     [moveRect img r dx dy]).
Proof.
  destruct Hgeo as (Himage & _).
  unfold handleMouseMove. rewrite Hdrag, Himage, Hcrop, Hmode, Hstart.
  cbv zeta. unfold set_dragStart, set_cropRect.
  cbn [canvas image cropRect isDragging dragStart dragMode view].
  rewrite Hdrag, Himage, Hmode. reflexivity.
Qed.

(** The image-space delta of a move is the canvas delta over the total
    scale. *)
Lemma move_delta :
  dx == (Point.x mouse - Point.x ds) / (getBaseScale st * zoom (view st)) /\
  dy == (Point.y mouse - Point.y ds) / (getBaseScale st * zoom (view st)).
Proof.
  pose proof (total_scale_nonzero st img Hgeo) as Hs.
  destruct Hgeo as (Himage & _).
  subst dx dy. unfold canvasToImage. rewrite Himage. cbn [Point.x Point.y].
  split; field; split; intros H0; apply Hs; rewrite H0; ring.
Qed.

End Move.

(** X10. A pointer move handled in the moving state makes the crop
    rectangle follow the pointer: its size is unchanged, and its position
    is the old one plus the movement of the pointer on the canvas divided
    by the total scale, as long as that target lies inside the image;
    a target past an edge of the image leaves the rectangle at that edge.
    The new rectangle is reported and the pointer becomes the new drag
    start. *)
Theorem move_follows_pointer
    (st : CropEngine.t) (img : Image.t) (r : CropRect.t) (ds : Point.t)
    (e : CropEngine.MouseEvent) :
  CropEngine.finite_geometry st img ->
  CropEngine.isDragging st = true ->
  CropEngine.cropRect st = Some r ->
  CropEngine.dragMode st = Some CropEngine.move ->
  CropEngine.dragStart st = Some ds ->
  let mouse := CropEngine.getMouseCanvasPos st e in
  let scale :=
    CropEngine.getBaseScale st * CropEngine.zoom (CropEngine.view st) in
  let tx := CropRect.x r + (Point.x mouse - Point.x ds) / scale in
  let ty := CropRect.y r + (Point.y mouse - Point.y ds) / scale in
  let maxX := Image.width img - CropRect.width r in
  let maxY := Image.height img - CropRect.height r in
  exists r' : CropRect.t,
    CropEngine.cropRect (fst (CropEngine.handleMouseMove st e)) = Some r' /\
    snd (CropEngine.handleMouseMove st e) = [r'] /\
    CropEngine.dragStart (fst (CropEngine.handleMouseMove st e))
    = Some (Point.mk (Point.x mouse) (Point.y mouse)) /\
    CropRect.width r' = CropRect.width r /\
    CropRect.height r' = CropRect.height r /\
    (0 <= tx <= maxX -> CropRect.x r' == tx) /\
    (0 <= ty <= maxY -> CropRect.y r' == ty) /\
    (0 <= maxX <= tx -> CropRect.x r' == maxX) /\
    (0 <= maxY <= ty -> CropRect.y r' == maxY) /\
    (tx <= 0 -> CropRect.x r' == 0) /\
    (ty <= 0 -> CropRect.y r' == 0).
Proof.
  intros Hgeo Hd Hr Hm Hs mouse scale tx ty maxX maxY.
  rewrite (handleMouseMove_move_fields st img r ds e Hgeo Hd Hr Hm Hs).
  destruct (move_delta st img ds e Hgeo) as [Hdx Hdy].
  eexists. cbn [fst snd CropEngine.cropRect CropEngine.dragStart].
  split; [reflexivity|]. split; [reflexivity|]. split; [reflexivity|].
  unfold CropEngine.moveRect.
  cbn [CropRect.x CropRect.y CropRect.width CropRect.height].
  split; [reflexivity|]. split; [reflexivity|].
  subst tx ty maxX maxY scale mouse.
  set (qx := (_ - Point.x ds) / _) in *.
  set (qy := (_ - Point.y ds) / _) in *.
  clearbody qx qy.
  split_and!; intros ?; split_minmax; lra.
Qed.

Lemma move_follows_pointer_witness :
  let st := Samples.dragging CropEngine.move in
  (CropEngine.finite_geometry st Samples.image /\
   CropEngine.isDragging st = true /\
   CropEngine.cropRect st = Some Samples.crop /\
   CropEngine.dragMode st = Some CropEngine.move /\
   CropEngine.dragStart st = Some (Point.mk 440 340)) /\
  exists r' : CropRect.t,
    CropEngine.cropRect (fst (CropEngine.handleMouseMove st Samples.inside))
    = Some r' /\
    CropRect.x r' == 500 + 60 / 0.4.
Proof.
  cbv zeta.
  assert (H1 : CropEngine.finite_geometry
                 (Samples.dragging CropEngine.move) Samples.image)
    by (repeat split; by_computation).
  split; [split_and!; [exact H1 | reflexivity..]|].
  destruct (move_follows_pointer (Samples.dragging CropEngine.move)
              Samples.image Samples.crop (Point.mk 440 340) Samples.inside
              H1 eq_refl eq_refl eq_refl eq_refl)
    as (r' & Hr' & _ & _ & _ & _ & Hx & _).
  exists r'. split; [exact Hr'|].
  rewrite Hx; [by_computation | split; by_computation].
Defined.

Lemma handleMouseMove_resize_fields
    (st : CropEngine.t) (img : Image.t) (r : CropRect.t)
    (mode : CropEngine.DragMode) (e : CropEngine.MouseEvent) :
  CropEngine.image st = Some img ->
  CropEngine.gesture st r mode ->
  CropEngine.resizing mode ->
  let r' := CropEngine.resizeRect mode r (CropEngine.pointerInImage st e) in
  CropEngine.handleMouseMove st e = (CropEngine.set_cropRect st r', [r']).
Proof.
  intros Himage (Hd & Hr & Hm & Hs) Hmode r'. subst r'.
  destruct (CropEngine.dragStart st) as [ds|] eqn:Hds; [|congruence].
  unfold CropEngine.handleMouseMove, CropEngine.pointerInImage.
  rewrite Hd, Himage, Hr, Hm, Hds.
  destruct Hmode as [->|[->|[->| ->]]]; reflexivity.
Qed.

(** X11. A pointer move handled in a resizing state makes the dragged
    corner follow the pointer: as long as the pointer, in image space,
    stays at least 10 away from the fixed opposite corner on the side of
    the dragged corner, in both directions, the dragged corner of the new
    crop rectangle is the pointer.  The new rectangle is reported, and the
    drag start is left as it is. *)
Theorem resize_follows_pointer
    (st : CropEngine.t) (img : Image.t) (r : CropRect.t)
    (mode : CropEngine.DragMode) (e : CropEngine.MouseEvent) :
  CropEngine.image st = Some img ->
  CropEngine.gesture st r mode ->
  CropEngine.resizing mode ->
  let p := CropEngine.pointerInImage st e in
  let right := CropRect.x r + CropRect.width r in
  let bottom := CropRect.y r + CropRect.height r in
  exists r' : CropRect.t,
    CropEngine.cropRect (fst (CropEngine.handleMouseMove st e)) = Some r' /\
    snd (CropEngine.handleMouseMove st e) = [r'] /\
    CropEngine.dragStart (fst (CropEngine.handleMouseMove st e))
    = CropEngine.dragStart st /\
    (mode = CropEngine.resize_br ->
     CropRect.x r + 10 <= Point.x p -> CropRect.y r + 10 <= Point.y p ->
     CropRect.x r' + CropRect.width r' == Point.x p /\
     CropRect.y r' + CropRect.height r' == Point.y p) /\
    (mode = CropEngine.resize_tl ->
     Point.x p <= right - 10 -> Point.y p <= bottom - 10 ->
     CropRect.x r' == Point.x p /\ CropRect.y r' == Point.y p) /\
    (mode = CropEngine.resize_tr ->
     CropRect.x r + 10 <= Point.x p -> Point.y p <= bottom - 10 ->
     CropRect.x r' + CropRect.width r' == Point.x p /\
     CropRect.y r' == Point.y p) /\
    (mode = CropEngine.resize_bl ->
     Point.x p <= right - 10 -> CropRect.y r + 10 <= Point.y p ->
     CropRect.x r' == Point.x p /\
     CropRect.y r' + CropRect.height r' == Point.y p).
Proof.
  intros Himage Hg Hmode p right bottom.
  rewrite (handleMouseMove_resize_fields st img r mode e Himage Hg Hmode).
  eexists. cbn [fst snd CropEngine.cropRect CropEngine.set_cropRect
                CropEngine.dragStart].
  split; [reflexivity|]. split; [reflexivity|]. split; [reflexivity|].
  fold p. subst right bottom.
  split_and!; intros -> ? ?;
    cbn [CropEngine.resizeRect CropRect.x CropRect.y CropRect.width
         CropRect.height];
    split_minmax; split; lra.
Qed.

Lemma resize_follows_pointer_witness :
  let st := Samples.dragging CropEngine.resize_tl in
  (CropEngine.image st = Some Samples.image /\
   CropEngine.gesture st Samples.crop CropEngine.resize_tl /\
   CropEngine.resizing CropEngine.resize_tl) /\
  exists r' : CropRect.t,
    CropEngine.cropRect (fst (CropEngine.handleMouseMove st (CropEngine.mkMouse 300 300)))
    = Some r' /\
    CropRect.x r' == Point.x (CropEngine.pointerInImage st (CropEngine.mkMouse 300 300)).
Proof.
  cbv zeta.
  assert (H2 : CropEngine.gesture (Samples.dragging CropEngine.resize_tl)
                 Samples.crop CropEngine.resize_tl)
    by (repeat split; discriminate).
  assert (H3 : CropEngine.resizing CropEngine.resize_tl)
    by (left; reflexivity).
  split; [split_and!; [reflexivity | exact H2 | exact H3]|].
  destruct (resize_follows_pointer (Samples.dragging CropEngine.resize_tl)
              Samples.image Samples.crop CropEngine.resize_tl (CropEngine.mkMouse 300 300)
              eq_refl H2 H3)
    as (r' & Hr' & _ & _ & _ & Htl & _).
  exists r'. split; [exact Hr'|].
  apply Htl; [reflexivity | by_computation | by_computation].
Defined.

(** X12. A pointer move handled in a resizing state never makes the crop
    rectangle narrower or lower than 10 and never flips it: once the
    pointer, in image space, is within 10 of the fixed opposite corner or
    beyond it in one direction, the rectangle is exactly 10 wide (or high)
    and still attached to that corner. *)
Theorem resize_stops_at_min_size
    (st : CropEngine.t) (img : Image.t) (r : CropRect.t)
    (mode : CropEngine.DragMode) (e : CropEngine.MouseEvent) :
  CropEngine.image st = Some img ->
  CropEngine.gesture st r mode ->
  CropEngine.resizing mode ->
  let p := CropEngine.pointerInImage st e in
  let right := CropRect.x r + CropRect.width r in
  let bottom := CropRect.y r + CropRect.height r in
  exists r' : CropRect.t,
    CropEngine.cropRect (fst (CropEngine.handleMouseMove st e)) = Some r' /\
    (mode = CropEngine.resize_br \/ mode = CropEngine.resize_tr ->
     Point.x p <= CropRect.x r + 10 ->
     CropRect.width r' == 10 /\ CropRect.x r' == CropRect.x r) /\
    (mode = CropEngine.resize_tl \/ mode = CropEngine.resize_bl ->
     right - 10 <= Point.x p ->
     CropRect.width r' == 10 /\ CropRect.x r' + CropRect.width r' == right) /\
    (mode = CropEngine.resize_br \/ mode = CropEngine.resize_bl ->
     Point.y p <= CropRect.y r + 10 ->
     CropRect.height r' == 10 /\ CropRect.y r' == CropRect.y r) /\
    (mode = CropEngine.resize_tl \/ mode = CropEngine.resize_tr ->
     bottom - 10 <= Point.y p ->
     CropRect.height r' == 10 /\
     CropRect.y r' + CropRect.height r' == bottom).
Proof.
  intros Himage Hg Hmode p right bottom.
  rewrite (handleMouseMove_resize_fields st img r mode e Himage Hg Hmode).
  eexists. cbn [fst CropEngine.cropRect CropEngine.set_cropRect].
  split; [reflexivity|]. fold p. subst right bottom.
  split_and!; intros [-> | ->] ?;
    cbn [CropEngine.resizeRect CropRect.x CropRect.y CropRect.width
         CropRect.height];
    split_minmax; split; lra.
Qed.

Lemma resize_stops_at_min_size_witness :
  let st := Samples.dragging CropEngine.resize_tl in
  (CropEngine.image st = Some Samples.image /\
   CropEngine.gesture st Samples.crop CropEngine.resize_tl /\
   CropEngine.resizing CropEngine.resize_tl) /\
  exists r' : CropRect.t,
    CropEngine.cropRect (fst (CropEngine.handleMouseMove st Samples.corner))
    = Some r' /\
    CropRect.width r' == 10 /\ CropRect.height r' == 10.
Proof.
  cbv zeta.
  assert (H2 : CropEngine.gesture (Samples.dragging CropEngine.resize_tl)
                 Samples.crop CropEngine.resize_tl)
    by (repeat split; discriminate).
  assert (H3 : CropEngine.resizing CropEngine.resize_tl)
    by (left; reflexivity).
  split; [split_and!; [reflexivity | exact H2 | exact H3]|].
  destruct (resize_stops_at_min_size (Samples.dragging CropEngine.resize_tl)
              Samples.image Samples.crop CropEngine.resize_tl Samples.corner
              eq_refl H2 H3)
    as (r' & Hr' & _ & Hw & _ & Hh).
  exists r'. split; [exact Hr'|]. split.
  - apply Hw; [left; reflexivity | by_computation].
  - apply Hh; [left; reflexivity | by_computation].
Defined.

(** ** Zooming and drawing *)

(** X13. [handleWheel] changes the camera only: the image, the canvas, the
    crop rectangle and the state of the gesture stay as they are.  On an
    engine that holds an image, scrolling down (a positive [deltaY])
    multiplies the zoom by 0.9 and any other wheel event multiplies it by
    1.1, as long as the product stays within [0.1, 10]. *)
Theorem handleWheel_step
    (st : CropEngine.t) (e : CropEngine.WheelEvent) :
  let st' := CropEngine.handleWheel st e in
  let z := CropEngine.zoom (CropEngine.view st) in
  (CropEngine.image st' = CropEngine.image st /\
   CropEngine.canvas st' = CropEngine.canvas st /\
   CropEngine.cropRect st' = CropEngine.cropRect st /\
   CropEngine.isDragging st' = CropEngine.isDragging st /\
   CropEngine.dragStart st' = CropEngine.dragStart st /\
   CropEngine.dragMode st' = CropEngine.dragMode st) /\
  (CropEngine.image st <> None ->
   (0 < CropEngine.deltaY e -> 0.1 <= 0.9 * z <= 10 ->
    CropEngine.zoom (CropEngine.view st') == 0.9 * z) /\
   (CropEngine.deltaY e <= 0 -> 0.1 <= 1.1 * z <= 10 ->
    CropEngine.zoom (CropEngine.view st') == 1.1 * z)).
Proof.
  intros st' z. subst st' z. split.
  - unfold CropEngine.handleWheel.
    destruct (CropEngine.image st) eqn:Himg; split_and!;
      first [reflexivity | cbn; exact Himg].
  - intros Hsome.
    destruct (CropEngine.image st) as [img|] eqn:Himg; [|congruence].
    unfold_wheel Himg. split; intros Hd Hrange.
    + apply Qlt_bool_true in Hd. rewrite Hd. split_minmax; lra.
    + apply Qlt_bool_false in Hd. rewrite Hd. split_minmax; lra.
Qed.

Lemma handleWheel_step_witness :
  CropEngine.zoom
    (CropEngine.view (CropEngine.handleWheel Samples.loaded Samples.wheel_up))
  == 1.1.
Proof.
  rewrite (proj2 (proj2 (handleWheel_step Samples.loaded Samples.wheel_up)
                    ltac:(discriminate)));
    [by_computation | by_computation | split; by_computation].
Defined.

Lemma handleWheel_canvas (st : CropEngine.t) (e : CropEngine.WheelEvent) :
  CropEngine.canvas (CropEngine.handleWheel st e) = CropEngine.canvas st.
Proof.
  unfold CropEngine.handleWheel. destruct (CropEngine.image st); reflexivity.
Qed.

Lemma getMouseCanvasPos_handleWheel
    (st : CropEngine.t) (e : CropEngine.WheelEvent)
    (p : CropEngine.MouseEvent) :
  CropEngine.getMouseCanvasPos (CropEngine.handleWheel st e) p
  = CropEngine.getMouseCanvasPos st p.
Proof.
  unfold CropEngine.getMouseCanvasPos. rewrite handleWheel_canvas.
  reflexivity.
Qed.

(** X14. [handleWheel] keeps the image point under the pointer: on an
    engine with an image and a positive zoom, the image-space position of
    the pointer of the wheel event is the same after the call as before,
    so that a sequence of wheel events at one pointer position zooms
    about one image point. *)
Theorem handleWheel_keeps_point_under_pointer
    (st : CropEngine.t) (img : Image.t) (e : CropEngine.WheelEvent) :
  CropEngine.finite_geometry st img ->
  let before := CropEngine.pointerInImage st (CropEngine.pointer e) in
  let after :=
    CropEngine.pointerInImage (CropEngine.handleWheel st e)
      (CropEngine.pointer e) in
  Point.x after == Point.x before /\ Point.y after == Point.y before.
Proof.
  intros Hgeo before after. subst before after.
  pose proof (handleWheel_zoom_range st img e Hgeo) as [Hz _].
  destruct Hgeo as (Himg & Hw & Hh & _ & _ & _).
  pose proof (getBaseScale_pos st img Himg Hw Hh) as Hb.
  revert Hz. unfold CropEngine.pointerInImage.
  rewrite getMouseCanvasPos_handleWheel.
  set (p := CropEngine.canvasToImage st _ _).
  unfold CropEngine.canvasToImage at 1 2.
  unfold_wheel Himg. fold p.
  set (nz := Qmax _ _). intros Hz.
  split; field; split; lra.
Qed.

Lemma handleWheel_keeps_point_under_pointer_witness :
  CropEngine.finite_geometry Samples.loaded Samples.image /\
  Point.x (CropEngine.pointerInImage
             (CropEngine.handleWheel Samples.loaded Samples.wheel_up)
             Samples.inside)
  == 1000 + 60 / 0.4.
Proof.
  assert (H1 : CropEngine.finite_geometry Samples.loaded Samples.image)
    by (repeat split; by_computation).
  split; [exact H1|].
  rewrite (proj1 (handleWheel_keeps_point_under_pointer Samples.loaded
                    Samples.image Samples.wheel_up H1)).
  by_computation.
Defined.



(** ** More on the re-framer *)

Section ReframeMore.

Variable image : Image.t.
Variable userCrop : CropRect.t.
Variable preset : SizePreset.t.
Hypothesis HW : 0 < Image.width image.
Hypothesis HH : 0 < Image.height image.
Hypothesis Huw : 0 < CropRect.width userCrop.
Hypothesis Huh : 0 < CropRect.height userCrop.
Hypothesis Hpw : (0 < SizePreset.width preset)%Z.
Hypothesis Hph : (0 < SizePreset.height preset)%Z.

Let targetRatio :=
  inject_Z (SizePreset.width preset) / inject_Z (SizePreset.height preset).

Lemma targetRatio_pos : 0 < targetRatio.
Proof.
  subst targetRatio.
  apply Qdiv_pos; change 0 with (inject_Z 0); rewrite <- Zlt_Qlt; assumption.
Qed.

(** The expanded box, before it is fitted to the image. *)
Let wider :=
  Qlt_bool (CropRect.width userCrop / CropRect.height userCrop) targetRatio.
Let sourceH0 :=
  if wider then CropRect.height userCrop
  else CropRect.width userCrop / targetRatio.
Let sourceW0 :=
  if wider then CropRect.height userCrop * targetRatio
  else CropRect.width userCrop.

(** The expansion never shrinks the crop. *)
Lemma expansion_covers_crop :
  CropRect.width userCrop <= sourceW0 /\
  CropRect.height userCrop <= sourceH0.
Proof.
  pose proof targetRatio_pos as Hr.
  subst sourceW0 sourceH0.
  assert (Hu : CropRect.width userCrop / CropRect.height userCrop
               * CropRect.height userCrop == CropRect.width userCrop)
    by (field; lra).
  set (u := CropRect.width userCrop / CropRect.height userCrop) in *.
  destruct wider eqn:E; subst wider.
  - apply Qlt_bool_true in E. split; [nra | lra].
  - apply Qlt_bool_false in E. split; [lra|].
    assert (Hd : CropRect.width userCrop / targetRatio * targetRatio
                 == CropRect.width userCrop) by (field; lra).
    set (d := CropRect.width userCrop / targetRatio) in *.
    nra.
Qed.

End ReframeMore.

(** As [split_comparisons], innermost comparisons first. *)
Ltac split_inner_comparisons :=
  repeat match goal with
  | |- context [Qlt_bool ?a ?b] =>
      lazymatch a with context [Qlt_bool _ _] => fail | _ => idtac end;
      lazymatch b with context [Qlt_bool _ _] => fail | _ => idtac end;
      let E := fresh "E" in
      destruct (Qlt_bool a b) eqn:E;
      [apply Qlt_bool_true in E | apply Qlt_bool_false in E]
  end.

(** X16. When the user crop lies within the image and the crop expanded to
    the target ratio fits into the image (its height times the ratio is at
    most the image width, and its width over the ratio at most the image
    height), the source rectangle of [generateImage] contains the user
    crop, and it has the size of the expanded crop: the larger of the crop
    width and the crop height times the ratio, by the larger of the crop
    height and the crop width over the ratio. *)
Theorem sourceRect_contains_userCrop
    (image : Image.t) (userCrop : CropRect.t) (preset : SizePreset.t) :
  0 < CropRect.width userCrop -> 0 < CropRect.height userCrop ->
  (0 < SizePreset.width preset)%Z -> (0 < SizePreset.height preset)%Z ->
  0 <= CropRect.x userCrop -> 0 <= CropRect.y userCrop ->
  CropRect.x userCrop + CropRect.width userCrop <= Image.width image ->
  CropRect.y userCrop + CropRect.height userCrop <= Image.height image ->
  let targetRatio :=
    inject_Z (SizePreset.width preset) / inject_Z (SizePreset.height preset) in
  CropRect.height userCrop * targetRatio <= Image.width image ->
  CropRect.width userCrop / targetRatio <= Image.height image ->
  let s := BatchProcessor.sourceRect image userCrop preset in
  CropRect.x s <= CropRect.x userCrop /\
  CropRect.y s <= CropRect.y userCrop /\
  CropRect.x userCrop + CropRect.width userCrop
    <= CropRect.x s + CropRect.width s /\
  CropRect.y userCrop + CropRect.height userCrop
    <= CropRect.y s + CropRect.height s /\
  CropRect.width s
    == Qmax (CropRect.width userCrop) (CropRect.height userCrop * targetRatio) /\
  CropRect.height s
    == Qmax (CropRect.height userCrop) (CropRect.width userCrop / targetRatio).
Proof.
  intros Huw Huh Hpw Hph Hx Hy Hxw Hyh targetRatio HfitW HfitH s.
  pose proof (targetRatio_pos preset Hpw Hph) as Hr. fold targetRatio in Hr.
  subst s. unfold BatchProcessor.sourceRect.
  cbn [CropRect.x CropRect.y CropRect.width CropRect.height].
  fold targetRatio.
  assert (Hu : CropRect.width userCrop / CropRect.height userCrop
               * CropRect.height userCrop == CropRect.width userCrop)
    by (field; lra).
  assert (Hd : CropRect.width userCrop / targetRatio * targetRatio
               == CropRect.width userCrop) by (field; lra).
  set (u := CropRect.width userCrop / CropRect.height userCrop) in *.
  set (d := CropRect.width userCrop / targetRatio) in *.
  set (wider := Qlt_bool u targetRatio) in *.
  destruct wider eqn:Ewider; subst wider;
    [apply Qlt_bool_true in Ewider | apply Qlt_bool_false in Ewider].
  - assert (Hdh : d <= CropRect.height userCrop) by nra.
    assert (Hlt : CropRect.width userCrop
                  <= CropRect.height userCrop * targetRatio) by nra.
    rewrite (proj2 (Qlt_bool_false _ _) HfitW).
    assert (EH : Qlt_bool (Image.height image) (CropRect.height userCrop)
                 = false) by (apply Qlt_bool_false; lra).
    rewrite EH.
    unfold Qdiv in *. change (/ 2) with (1 # 2) in *.
    split_inner_comparisons; split_minmax; split_and!; lra.
  - assert (Hdh : CropRect.height userCrop <= d) by nra.
    assert (EW : Qlt_bool (Image.width image) (CropRect.width userCrop)
                 = false) by (apply Qlt_bool_false; lra).
    rewrite EW. rewrite (proj2 (Qlt_bool_false _ _) HfitH).
    assert (Hle : CropRect.height userCrop * targetRatio
                  <= CropRect.width userCrop) by nra.
    unfold Qdiv in *. change (/ 2) with (1 # 2) in *.
    split_inner_comparisons; split_minmax; split_and!; lra.
Qed.

Lemma sourceRect_contains_userCrop_witness :
  (0 < CropRect.width Samples.crop /\ 0 < CropRect.height Samples.crop /\
   (0 < SizePreset.width Samples.facebook)%Z /\
   (0 < SizePreset.height Samples.facebook)%Z /\
   0 <= CropRect.x Samples.crop /\ 0 <= CropRect.y Samples.crop /\
   CropRect.x Samples.crop + CropRect.width Samples.crop
     <= Image.width Samples.image /\
   CropRect.y Samples.crop + CropRect.height Samples.crop
     <= Image.height Samples.image /\
   CropRect.height Samples.crop * (inject_Z 1200 / inject_Z 630)
     <= Image.width Samples.image /\
   CropRect.width Samples.crop / (inject_Z 1200 / inject_Z 630)
     <= Image.height Samples.image) /\
  CropRect.x (BatchProcessor.sourceRect Samples.image Samples.crop
                Samples.facebook)
  <= CropRect.x Samples.crop.
Proof.
  assert (H1 : 0 < CropRect.width Samples.crop) by reflexivity.
  assert (H2 : 0 < CropRect.height Samples.crop) by reflexivity.
  assert (H3 : (0 < SizePreset.width Samples.facebook)%Z) by reflexivity.
  assert (H4 : (0 < SizePreset.height Samples.facebook)%Z) by reflexivity.
  assert (H5 : 0 <= CropRect.x Samples.crop) by by_computation.
  assert (H6 : 0 <= CropRect.y Samples.crop) by by_computation.
  assert (H7 : CropRect.x Samples.crop + CropRect.width Samples.crop
               <= Image.width Samples.image) by by_computation.
  assert (H8 : CropRect.y Samples.crop + CropRect.height Samples.crop
               <= Image.height Samples.image) by by_computation.
  assert (H9 : CropRect.height Samples.crop * (inject_Z 1200 / inject_Z 630)
               <= Image.width Samples.image) by by_computation.
  assert (H10 : CropRect.width Samples.crop / (inject_Z 1200 / inject_Z 630)
                <= Image.height Samples.image) by by_computation.
  split; [split_and!; assumption|].
  exact (proj1 (sourceRect_contains_userCrop Samples.image Samples.crop
                  Samples.facebook H1 H2 H3 H4 H5 H6 H7 H8 H9 H10)).
Defined.

(** X17. When the user crop lies within the image and already has the
    target ratio, the source rectangle of [generateImage] is the user
    crop. *)
Theorem sourceRect_of_matching_ratio
    (image : Image.t) (userCrop : CropRect.t) (preset : SizePreset.t) :
  0 < CropRect.width userCrop -> 0 < CropRect.height userCrop ->
  (0 < SizePreset.width preset)%Z -> (0 < SizePreset.height preset)%Z ->
  0 <= CropRect.x userCrop -> 0 <= CropRect.y userCrop ->
  CropRect.x userCrop + CropRect.width userCrop <= Image.width image ->
  CropRect.y userCrop + CropRect.height userCrop <= Image.height image ->
  CropRect.width userCrop / CropRect.height userCrop
  == inject_Z (SizePreset.width preset) / inject_Z (SizePreset.height preset) ->
  let s := BatchProcessor.sourceRect image userCrop preset in
  CropRect.x s == CropRect.x userCrop /\
  CropRect.y s == CropRect.y userCrop /\
  CropRect.width s == CropRect.width userCrop /\
  CropRect.height s == CropRect.height userCrop.
Proof.
  intros Huw Huh Hpw Hph Hx Hy Hxw Hyh Hsame s.
  pose proof (targetRatio_pos preset Hpw Hph) as Hr.
  subst s. unfold BatchProcessor.sourceRect.
  cbn [CropRect.x CropRect.y CropRect.width CropRect.height].
  set (targetRatio :=
         inject_Z (SizePreset.width preset)
         / inject_Z (SizePreset.height preset)) in *.
  assert (Hu : CropRect.width userCrop / CropRect.height userCrop
               * CropRect.height userCrop == CropRect.width userCrop)
    by (field; lra).
  assert (Hd : CropRect.width userCrop / targetRatio * targetRatio
               == CropRect.width userCrop) by (field; lra).
  set (u := CropRect.width userCrop / CropRect.height userCrop) in *.
  set (d := CropRect.width userCrop / targetRatio) in *.
  assert (Hdh : d == CropRect.height userCrop) by nra.
  assert (E1 : Qlt_bool u targetRatio = false)
    by (apply Qlt_bool_false; lra).
  rewrite E1.
  assert (E2 : Qlt_bool (Image.width image) (CropRect.width userCrop) = false)
    by (apply Qlt_bool_false; lra).
  rewrite E2.
  assert (E3 : Qlt_bool (Image.height image) d = false)
    by (apply Qlt_bool_false; lra).
  rewrite E3.
  unfold Qdiv in *. change (/ 2) with (1 # 2) in *.
  split_inner_comparisons; split_and!; lra.
Qed.

Lemma sourceRect_of_matching_ratio_witness :
  (0 < CropRect.width Samples.crop /\ 0 < CropRect.height Samples.crop /\
   (0 < SizePreset.width Samples.square)%Z /\
   (0 < SizePreset.height Samples.square)%Z /\
   0 <= CropRect.x Samples.crop /\ 0 <= CropRect.y Samples.crop /\
   CropRect.x Samples.crop + CropRect.width Samples.crop
     <= Image.width Samples.image /\
   CropRect.y Samples.crop + CropRect.height Samples.crop
     <= Image.height Samples.image /\
   CropRect.width Samples.crop / CropRect.height Samples.crop
   == inject_Z (SizePreset.width Samples.square)
      / inject_Z (SizePreset.height Samples.square)) /\
  CropRect.x (BatchProcessor.sourceRect Samples.image Samples.crop
                Samples.square) == 500.
Proof.
  assert (H1 : 0 < CropRect.width Samples.crop) by reflexivity.
  assert (H2 : 0 < CropRect.height Samples.crop) by reflexivity.
  assert (H3 : (0 < SizePreset.width Samples.square)%Z) by reflexivity.
  assert (H4 : (0 < SizePreset.height Samples.square)%Z) by reflexivity.
  assert (H5 : 0 <= CropRect.x Samples.crop) by by_computation.
  assert (H6 : 0 <= CropRect.y Samples.crop) by by_computation.
  assert (H7 : CropRect.x Samples.crop + CropRect.width Samples.crop
               <= Image.width Samples.image) by by_computation.
  assert (H8 : CropRect.y Samples.crop + CropRect.height Samples.crop
               <= Image.height Samples.image) by by_computation.
  assert (H9 : CropRect.width Samples.crop / CropRect.height Samples.crop
               == inject_Z (SizePreset.width Samples.square)
                  / inject_Z (SizePreset.height Samples.square))
    by by_computation.
  split; [split_and!; assumption|].
  exact (proj1 (sourceRect_of_matching_ratio Samples.image Samples.crop
                  Samples.square H1 H2 H3 H4 H5 H6 H7 H8 H9)).
Defined.

(** X18. When the user crop expanded to the target ratio does not fit into
    the image, the source rectangle of [generateImage] spans the whole
    width or the whole height of the image. *)
Theorem sourceRect_shrunk_spans_image
    (image : Image.t) (userCrop : CropRect.t) (preset : SizePreset.t) :
  0 < Image.width image -> 0 < Image.height image ->
  0 < CropRect.width userCrop -> 0 < CropRect.height userCrop ->
  (0 < SizePreset.width preset)%Z -> (0 < SizePreset.height preset)%Z ->
  let targetRatio :=
    inject_Z (SizePreset.width preset) / inject_Z (SizePreset.height preset) in
  Image.width image
    < Qmax (CropRect.width userCrop) (CropRect.height userCrop * targetRatio)
  \/ Image.height image
     < Qmax (CropRect.height userCrop) (CropRect.width userCrop / targetRatio) ->
  let s := BatchProcessor.sourceRect image userCrop preset in
  (CropRect.width s == Image.width image /\ CropRect.x s == 0) \/
  (CropRect.height s == Image.height image /\ CropRect.y s == 0).
Proof.
  intros HW HH Huw Huh Hpw Hph targetRatio Hover s.
  pose proof (targetRatio_pos preset Hpw Hph) as Hr. fold targetRatio in Hr.
  subst s. unfold BatchProcessor.sourceRect.
  cbn [CropRect.x CropRect.y CropRect.width CropRect.height].
  fold targetRatio.
  assert (Hu : CropRect.width userCrop / CropRect.height userCrop
               * CropRect.height userCrop == CropRect.width userCrop)
    by (field; lra).
  assert (Hd : CropRect.width userCrop / targetRatio * targetRatio
               == CropRect.width userCrop) by (field; lra).
  assert (Hi : Image.width image / targetRatio * targetRatio
               == Image.width image) by (field; lra).
  set (u := CropRect.width userCrop / CropRect.height userCrop) in *.
  set (d := CropRect.width userCrop / targetRatio) in *.
  set (i := Image.width image / targetRatio) in *.
  set (ht := CropRect.height userCrop * targetRatio) in *.
  destruct (Qlt_bool u targetRatio) eqn:Ewider;
    [apply Qlt_bool_true in Ewider | apply Qlt_bool_false in Ewider].
  - assert (Hlt : CropRect.width userCrop < ht) by (subst ht; nra).
    assert (Hdh : d < CropRect.height userCrop) by nra.
    destruct (Qlt_bool (Image.width image) ht) eqn:EW;
      [apply Qlt_bool_true in EW | apply Qlt_bool_false in EW].
    + destruct (Qlt_bool (Image.height image) i) eqn:EH;
        [apply Qlt_bool_true in EH | apply Qlt_bool_false in EH].
      * right. unfold Qdiv. change (/ 2) with (1 # 2).
        split_inner_comparisons; split; lra.
      * left. unfold Qdiv. change (/ 2) with (1 # 2).
        split_inner_comparisons; split; lra.
    + destruct (Qlt_bool (Image.height image) (CropRect.height userCrop))
        eqn:EH; [apply Qlt_bool_true in EH | apply Qlt_bool_false in EH].
      * right. unfold Qdiv. change (/ 2) with (1 # 2).
        split_inner_comparisons; split; lra.
      * exfalso. destruct Hover as [Hover | Hover]; revert Hover;
          split_minmax; lra.
  - assert (Hle : ht <= CropRect.width userCrop) by (subst ht; nra).
    assert (Hdh : CropRect.height userCrop <= d) by nra.
    destruct (Qlt_bool (Image.width image) (CropRect.width userCrop)) eqn:EW;
      [apply Qlt_bool_true in EW | apply Qlt_bool_false in EW].
    + destruct (Qlt_bool (Image.height image) i) eqn:EH;
        [apply Qlt_bool_true in EH | apply Qlt_bool_false in EH].
      * right. unfold Qdiv. change (/ 2) with (1 # 2).
        split_inner_comparisons; split; lra.
      * left. unfold Qdiv. change (/ 2) with (1 # 2).
        split_inner_comparisons; split; lra.
    + destruct (Qlt_bool (Image.height image) d) eqn:EH;
        [apply Qlt_bool_true in EH | apply Qlt_bool_false in EH].
      * right. unfold Qdiv. change (/ 2) with (1 # 2).
        split_inner_comparisons; split; lra.
      * exfalso. destruct Hover as [Hover | Hover]; revert Hover;
          split_minmax; lra.
Qed.

Lemma sourceRect_shrunk_spans_image_witness :
  (0 < Image.width Samples.image /\ 0 < Image.height Samples.image /\
   0 < CropRect.width Samples.crop /\ 0 < CropRect.height Samples.crop /\
   (0 < SizePreset.width Samples.banner)%Z /\
   (0 < SizePreset.height Samples.banner)%Z /\
   Image.width Samples.image
   < Qmax (CropRect.width Samples.crop)
       (CropRect.height Samples.crop * (inject_Z 3000 / inject_Z 100))) /\
  let s := BatchProcessor.sourceRect Samples.image Samples.crop
             Samples.banner in
  (CropRect.width s == 2000 /\ CropRect.x s == 0) \/
  (CropRect.height s == 1000 /\ CropRect.y s == 0).
Proof.
  assert (H1 : 0 < Image.width Samples.image) by reflexivity.
  assert (H2 : 0 < Image.height Samples.image) by reflexivity.
  assert (H3 : 0 < CropRect.width Samples.crop) by reflexivity.
  assert (H4 : 0 < CropRect.height Samples.crop) by reflexivity.
  assert (H5 : (0 < SizePreset.width Samples.banner)%Z) by reflexivity.
  assert (H6 : (0 < SizePreset.height Samples.banner)%Z) by reflexivity.
  assert (H7 : Image.width Samples.image
               < Qmax (CropRect.width Samples.crop)
                   (CropRect.height Samples.crop
                    * (inject_Z 3000 / inject_Z 100)))
    by by_computation.
  split; [split_and!; assumption|].
  exact (sourceRect_shrunk_spans_image Samples.image Samples.crop
           Samples.banner H1 H2 H3 H4 H5 H6 (or_introl H7)).
Defined.

(** ** File names and the archive *)

Lemma replace_whitespace_clean (s : string) :
  forall (in_run : bool) (n : nat) (c : ascii),
    String.get n (BatchProcessor.replace_whitespace in_run s) = Some c ->
    BatchProcessor.is_whitespace c = false.
Proof.
  induction s as [|c0 s IH]; intros in_run n c H; [discriminate H|].
  cbn [BatchProcessor.replace_whitespace] in H.
  destruct (BatchProcessor.is_whitespace c0) eqn:Ews.
  - destruct in_run; [apply (IH _ _ _ H)|].
    destruct n as [|n]; cbn [String.get] in H.
    + injection H as <-. reflexivity.
    + apply (IH _ _ _ H).
  - destruct n as [|n]; cbn [String.get] in H.
    + injection H as <-. exact Ews.
    + apply (IH _ _ _ H).
Qed.

Lemma replace_whitespace_fixed (s : string) :
  forall in_run : bool,
    (forall n c, String.get n s = Some c ->
                 BatchProcessor.is_whitespace c = false) ->
    BatchProcessor.replace_whitespace in_run s = s.
Proof.
  induction s as [|c0 s IH]; intros in_run H; [reflexivity|].
  cbn [BatchProcessor.replace_whitespace].
  rewrite (H 0%nat c0 eq_refl). f_equal. apply IH.
  intros n c Hn. apply (H (S n) c). exact Hn.
Qed.

Lemma replace_whitespace_length (s : string) :
  forall in_run : bool,
    (String.length (BatchProcessor.replace_whitespace in_run s)
     <= String.length s)%nat.
Proof.
  induction s as [|c0 s IH]; intros in_run; [reflexivity|].
  cbn [BatchProcessor.replace_whitespace String.length].
  destruct (BatchProcessor.is_whitespace c0).
  - destruct in_run; cbn [String.length].
    + specialize (IH true). lia.
    + specialize (IH true). lia.
  - cbn [String.length]. specialize (IH false). lia.
Qed.

(** X19. The label part of a file name, [label.replace(/\s+/g, '_')],
    contains no whitespace and is never longer than the label; a label
    without whitespace is kept as it is. *)
Theorem replace_whitespace_removes_whitespace (label : string) :
  let name := BatchProcessor.replace_whitespace false label in
  (forall n c, String.get n name = Some c ->
               BatchProcessor.is_whitespace c = false) /\
  (String.length name <= String.length label)%nat /\
  ((forall n c, String.get n label = Some c ->
                BatchProcessor.is_whitespace c = false) ->
   name = label).
Proof.
  intros name. subst name. split_and!.
  - apply replace_whitespace_clean.
  - apply replace_whitespace_length.
  - apply replace_whitespace_fixed.
Qed.

Lemma replace_whitespace_removes_whitespace_witness :
  BatchProcessor.replace_whitespace false "Full HD" = "Full_HD" /\
  BatchProcessor.replace_whitespace false "Wide  banner" = "Wide_banner" /\
  forall n c,
    String.get n (BatchProcessor.replace_whitespace false "Wide  banner")
    = Some c ->
    BatchProcessor.is_whitespace c = false.
Proof.
  split; [reflexivity|]. split; [reflexivity|].
  exact (proj1 (replace_whitespace_removes_whitespace "Wide  banner")).
Defined.

(** [process] is rejected exactly when some generation raises. *)
Lemma process_rejected_iff
    (Blob : Type) (getContext : SizePreset.t -> bool)
    (drawAndEncode :
       Image.t -> CropRect.t -> SizePreset.t -> Format -> Q ->
       BatchProcessor.Settled (option Blob))
    (schedule :
       list (SizePreset.t * BatchProcessor.Settled (option Blob)) ->
       list (SizePreset.t * BatchProcessor.Settled (option Blob)))
    (image : Image.t) (userCrop : CropRect.t) (presets : list SizePreset.t)
    (format : Format) (quality : Q) :
  BatchProcessor.process Blob getContext drawAndEncode schedule image
    userCrop presets format quality = BatchProcessor.Rejected <->
  exists preset,
    preset ∈ presets /\
    BatchProcessor.generateImage Blob getContext drawAndEncode image userCrop
      preset format quality = BatchProcessor.Rejected.
Proof.
  split.
  - intros Hrej.
    unfold BatchProcessor.process in Hrej. cbv zeta in Hrej.
    destruct (existsb _ _) eqn:E in Hrej; [|discriminate Hrej].
    apply existsb_exists in E as ([p outcome] & Hin & Hout).
    apply in_map_iff in Hin as (p' & [= -> <-] & Hp).
    exists p. split; [apply list_elem_of_In; exact Hp|].
    cbn [snd] in Hout.
    destruct (BatchProcessor.generateImage _ _ _ _ _ _ _ _);
      [discriminate Hout | reflexivity].
  - intros (p & Hp & Hg).
    apply (process_rejected_on_raise Blob getContext drawAndEncode schedule
             image userCrop format quality presets).
    apply Exists_exists. exists p. split; [exact Hp | exact Hg].
Qed.

(** X20. [process] is rejected exactly when the generation of some preset
    raises, whatever the other generations yield and in whatever order
    they complete; in particular an export over an empty list of presets
    completes, with an archive that holds no file. *)
Theorem process_rejected_iff_some_raise
    (Blob : Type) (getContext : SizePreset.t -> bool)
    (drawAndEncode :
       Image.t -> CropRect.t -> SizePreset.t -> Format -> Q ->
       BatchProcessor.Settled (option Blob))
    (schedule :
       list (SizePreset.t * BatchProcessor.Settled (option Blob)) ->
       list (SizePreset.t * BatchProcessor.Settled (option Blob)))
    (image : Image.t) (userCrop : CropRect.t) (presets : list SizePreset.t)
    (format : Format) (quality : Q) :
  (forall tasks, schedule tasks ≡ₚ tasks) ->
  let gen preset :=
    BatchProcessor.generateImage Blob getContext drawAndEncode image userCrop
      preset format quality in
  let run presets :=
    BatchProcessor.process Blob getContext drawAndEncode schedule image
      userCrop presets format quality in
  (run presets = BatchProcessor.Rejected <->
   exists preset, preset ∈ presets /\ gen preset = BatchProcessor.Rejected) /\
  run [] = BatchProcessor.Fulfilled ∅.
Proof.
  intros Hperm gen run. split.
  - apply process_rejected_iff.
  - subst run. cbv beta. unfold BatchProcessor.process. cbn [map existsb].
    rewrite (proj1 (Permutation_nil_r _) (Hperm [])). reflexivity.
Qed.

Lemma process_rejected_iff_some_raise_witness :
  (forall tasks, Samples.schedule tasks ≡ₚ tasks) /\
  BatchProcessor.process nat Samples.getContext Samples.drawAndEncode
    Samples.schedule Samples.image Samples.crop
    [Samples.facebook; Samples.square; Samples.portrait] png 0.9
  = BatchProcessor.Rejected.
Proof.
  assert (H : forall tasks, Samples.schedule tasks ≡ₚ tasks)
    by (intros tasks; reflexivity).
  split; [exact H|].
  apply (proj1 (process_rejected_iff_some_raise nat Samples.getContext
                  Samples.drawAndEncode Samples.schedule Samples.image
                  Samples.crop
                  [Samples.facebook; Samples.square; Samples.portrait]
                  png 0.9 H)).
  exists Samples.square. split; [right; left | reflexivity].
Defined.

(** X21. The outcome of [process] does not depend on the order in which
    the generations complete, provided that the presets that produce a
    blob under one file name produce the same blob: two orders give the
    same rejection or the same archive. *)
Theorem process_independent_of_completion_order
    (Blob : Type) (getContext : SizePreset.t -> bool)
    (drawAndEncode :
       Image.t -> CropRect.t -> SizePreset.t -> Format -> Q ->
       BatchProcessor.Settled (option Blob))
    (schedule1 schedule2 :
       list (SizePreset.t * BatchProcessor.Settled (option Blob)) ->
       list (SizePreset.t * BatchProcessor.Settled (option Blob)))
    (image : Image.t) (userCrop : CropRect.t) (presets : list SizePreset.t)
    (format : Format) (quality : Q) :
  (forall tasks, schedule1 tasks ≡ₚ tasks) ->
  (forall tasks, schedule2 tasks ≡ₚ tasks) ->
  let gen preset :=
    BatchProcessor.generateImage Blob getContext drawAndEncode image userCrop
      preset format quality in
  (forall p1 p2 b1 b2,
     p1 ∈ presets -> p2 ∈ presets ->
     gen p1 = BatchProcessor.Fulfilled (Some b1) ->
     gen p2 = BatchProcessor.Fulfilled (Some b2) ->
     BatchProcessor.path p1 format = BatchProcessor.path p2 format ->
     b1 = b2) ->
  BatchProcessor.process Blob getContext drawAndEncode schedule1 image
    userCrop presets format quality
  = BatchProcessor.process Blob getContext drawAndEncode schedule2 image
      userCrop presets format quality.
Proof.
  intros Hperm1 Hperm2 gen Hagree.
  unfold BatchProcessor.process. cbv zeta.
  destruct (existsb _ _); [reflexivity|]. f_equal.
  apply map_eq. intros key.
  pose proof (archive_entry_is_output Blob getContext drawAndEncode schedule1
                Hperm1 image userCrop format quality presets key) as Hin1.
  pose proof (archive_entry_is_output Blob getContext drawAndEncode schedule2
                Hperm2 image userCrop format quality presets key) as Hin2.
  pose proof (archive_has_output Blob getContext drawAndEncode schedule1
                Hperm1 image userCrop format quality presets) as Hout1.
  pose proof (archive_has_output Blob getContext drawAndEncode schedule2
                Hperm2 image userCrop format quality presets) as Hout2.
  cbv zeta in Hin1, Hin2, Hout1, Hout2.
  destruct (foldl _ _ (schedule1 _) !! key) as [b1|] eqn:E1;
    destruct (foldl _ _ (schedule2 _) !! key) as [b2|] eqn:E2.
  - destruct (Hin1 b1 eq_refl) as (p1 & Hp1 & Hg1 & Hk1).
    destruct (Hin2 b2 eq_refl) as (p2 & Hp2 & Hg2 & Hk2).
    f_equal. apply (Hagree p1 p2 b1 b2 Hp1 Hp2 Hg1 Hg2). congruence.
  - destruct (Hin1 b1 eq_refl) as (p1 & Hp1 & Hg1 & Hk1).
    destruct (Hout2 p1 b1 Hp1 Hg1) as [b Hb]. congruence.
  - destruct (Hin2 b2 eq_refl) as (p2 & Hp2 & Hg2 & Hk2).
    destruct (Hout1 p2 b2 Hp2 Hg2) as [b Hb]. congruence.
  - reflexivity.
Qed.

Lemma process_independent_of_completion_order_witness :
  ((forall tasks : list (SizePreset.t * BatchProcessor.Settled (option nat)),
      Samples.schedule tasks ≡ₚ tasks) /\
   (forall tasks : list (SizePreset.t * BatchProcessor.Settled (option nat)),
      reverse tasks ≡ₚ tasks)) /\
  BatchProcessor.process nat Samples.getContext Samples.drawAndEncode
    Samples.schedule Samples.image Samples.crop
    [Samples.portrait; Samples.facebook; Samples.banner] jpg 0.9
  = BatchProcessor.process nat Samples.getContext Samples.drawAndEncode
      reverse Samples.image Samples.crop
      [Samples.portrait; Samples.facebook; Samples.banner] jpg 0.9.
Proof.
  assert (H1 : forall tasks : list (SizePreset.t
                                   * BatchProcessor.Settled (option nat)),
             Samples.schedule tasks ≡ₚ tasks)
    by (intros tasks; reflexivity).
  assert (H2 : forall tasks : list (SizePreset.t
                                   * BatchProcessor.Settled (option nat)),
             reverse tasks ≡ₚ tasks)
    by (intros tasks; apply reverse_Permutation).
  split; [split; assumption|].
  apply (process_independent_of_completion_order nat Samples.getContext
           Samples.drawAndEncode Samples.schedule reverse Samples.image
           Samples.crop [Samples.portrait; Samples.facebook; Samples.banner]
           jpg 0.9 H1 H2).
  intros p1 p2 b1 b2 _ _ Hg1 Hg2 _.
  unfold BatchProcessor.generateImage, Samples.getContext,
    Samples.drawAndEncode in Hg1, Hg2.
  destruct (String.eqb (SizePreset.id p1) "1"); [discriminate Hg1|].
  destruct (String.eqb (SizePreset.id p1) "2"); [discriminate Hg1|].
  destruct (String.eqb (SizePreset.id p2) "1"); [discriminate Hg2|].
  destruct (String.eqb (SizePreset.id p2) "2"); [discriminate Hg2|].
  congruence.
Defined.

(** ** More on the preset list *)

Section Presets.

Import PresetManager.

Lemma update_one_idempotent (id : string) (updates : Partial)
    (p : SizePreset.t) :
  update_one id updates (update_one id updates p) = update_one id updates p.
Proof.
  unfold update_one at 2 3.
  destruct (String.eqb (SizePreset.id p) id) eqn:E.
  - unfold update_one.
    destruct (String.eqb (SizePreset.id (spread p updates)) id);
      [|reflexivity].
    unfold spread. destruct updates as [i w h l k].
    cbn. destruct i, w, h, l, k; reflexivity.
  - unfold update_one. rewrite E. reflexivity.
Qed.

Lemma filter_other_ids (id : string) (l : list SizePreset.t) :
  (forall p, p ∈ l -> SizePreset.id p <> id) ->
  List.filter (fun p => negb (String.eqb (SizePreset.id p) id)) l = l.
Proof.
  induction l as [|p l IH]; intros H; [reflexivity|].
  cbn [List.filter].
  assert (Hp : String.eqb (SizePreset.id p) id = false)
    by (apply String.eqb_neq; apply H; left).
  rewrite Hp. cbn [negb]. f_equal. apply IH.
  intros q Hq. apply H. right. exact Hq.
Qed.

Lemma filter_sublist (id : string) (l : list SizePreset.t) :
  sublist (List.filter (fun p => negb (String.eqb (SizePreset.id p) id)) l) l.
Proof.
  induction l as [|p l IH]; [constructor|].
  cbn [List.filter].
  destruct (negb (String.eqb (SizePreset.id p) id)); constructor; exact IH.
Qed.

Lemma elem_of_filter_ids (id : string) (l : list SizePreset.t)
    (p : SizePreset.t) :
  p ∈ List.filter (fun p => negb (String.eqb (SizePreset.id p) id)) l <->
  p ∈ l /\ SizePreset.id p <> id.
Proof.
  rewrite !list_elem_of_In, filter_In, negb_true_iff, String.eqb_neq.
  reflexivity.
Qed.

End Presets.

(** X22. [removePreset] removes every preset with the given id and
    nothing else: the presets left are those of the old list with another
    id, in their old order; a list without the id is left as it is.  The
    new list is stored and passed to [onChange]. *)
Theorem removePreset_removes_id (m : PresetManager.t) (id : string) :
  let l := PresetManager.presets m in
  let m' := PresetManager.removePreset m id in
  let l' := PresetManager.presets m' in
  (forall p, p ∈ l' <-> p ∈ l /\ SizePreset.id p <> id) /\
  sublist l' l /\
  ((forall p, p ∈ l -> SizePreset.id p <> id) -> l' = l) /\
  PresetManager.storage m' = Some (PresetManager.Parsed l') /\
  PresetManager.notified m' = l' :: PresetManager.notified m.
Proof.
  intros l m' l'. subst l m' l'. cbn. split_and!.
  - intros p. apply elem_of_filter_ids.
  - apply filter_sublist.
  - apply filter_other_ids.
  - reflexivity.
  - reflexivity.
Qed.

Lemma removePreset_removes_id_witness :
  PresetManager.presets (PresetManager.removePreset Samples.manager "2")
  = [Samples.square; Samples.facebook;
     SizePreset.mk "4" 1920 1080 "Full HD" true] /\
  forall p,
    p ∈ PresetManager.presets (PresetManager.removePreset Samples.manager "2")
    -> SizePreset.id p <> "2".
Proof.
  split; [reflexivity|].
  intros p Hp.
  exact (proj2 (proj1 (proj1 (removePreset_removes_id Samples.manager "2") p)
                  Hp)).
Defined.

(** X23. [updatePreset] is idempotent on the list: applying the same
    update to the same id twice leaves the presets as one application
    does, also when the update changes the id. *)
Theorem updatePreset_idempotent
    (m : PresetManager.t) (id : string) (updates : PresetManager.Partial)
    (silent1 silent2 : bool) :
  PresetManager.presets
    (PresetManager.updatePreset
       (PresetManager.updatePreset m id updates silent1) id updates silent2)
  = PresetManager.presets (PresetManager.updatePreset m id updates silent1).
Proof.
  cbn. rewrite map_map. apply map_ext. intros p.
  apply update_one_idempotent.
Qed.

(** X24. [removePreset] undoes [addPreset]: adding a preset whose id no
    preset of the list has, and then removing that id, gives the list back;
    adding appends the preset at the end of the list. *)
Theorem removePreset_after_addPreset
    (m : PresetManager.t) (preset : SizePreset.t) :
  (forall p, p ∈ PresetManager.presets m ->
             SizePreset.id p <> SizePreset.id preset) ->
  PresetManager.presets (PresetManager.addPreset m preset)
  = PresetManager.presets m ++ [preset] /\
  PresetManager.presets
    (PresetManager.removePreset (PresetManager.addPreset m preset)
       (SizePreset.id preset))
  = PresetManager.presets m.
Proof.
  intros Hfresh. split; [reflexivity|]. cbn.
  rewrite List.filter_app. cbn [List.filter].
  rewrite String.eqb_refl. cbn [negb]. rewrite app_nil_r.
  apply filter_other_ids. exact Hfresh.
Qed.

Lemma removePreset_after_addPreset_witness :
  (forall p, p ∈ PresetManager.presets Samples.manager ->
             SizePreset.id p <> SizePreset.id Samples.banner) /\
  PresetManager.presets
    (PresetManager.removePreset
       (PresetManager.addPreset Samples.manager Samples.banner) "5")
  = PresetManager.presets Samples.manager.
Proof.
  assert (H : forall p, p ∈ PresetManager.presets Samples.manager ->
                        SizePreset.id p <> SizePreset.id Samples.banner).
  { intros p Hp.
    change (PresetManager.presets Samples.manager)
      with PresetManager.getDefaultPresets in Hp.
    unfold PresetManager.getDefaultPresets in Hp.
    repeat match goal with
    | H : _ ∈ _ :: _ |- _ =>
        apply elem_of_cons in H; destruct H as [->|H]
    | H : _ ∈ [] |- _ => apply elem_of_nil in H; destruct H
    end; intros H; vm_compute in H; discriminate H. }
  split; [exact H|].
  exact (proj2 (removePreset_after_addPreset Samples.manager Samples.banner H)).
Defined.

(** ** What every state of the controller satisfies *)

Section ReachableStates.

Import UIController.

(** What [handleMouseMove] leaves alone, and what it reports. *)
Lemma handleMouseMove_frame (en : CropEngine.t) (e : CropEngine.MouseEvent) :
  let en' := fst (CropEngine.handleMouseMove en e) in
  let rects := snd (CropEngine.handleMouseMove en e) in
  CropEngine.image en' = CropEngine.image en /\
  CropEngine.canvas en' = CropEngine.canvas en /\
  CropEngine.zoom (CropEngine.view en') = CropEngine.zoom (CropEngine.view en) /\
  ((rects = [] /\ CropEngine.cropRect en' = CropEngine.cropRect en) \/
   (exists r', rects = [r'] /\ CropEngine.cropRect en' = Some r')).
Proof.
  unfold CropEngine.handleMouseMove.
  destruct (CropEngine.isDragging en) eqn:Hd;
    [|cbn; split_and!; auto].
  destruct (CropEngine.image en) as [img|] eqn:Hi;
    [|cbn; split_and!; auto].
  destruct (CropEngine.cropRect en) as [r|] eqn:Hr;
    [|cbn; split_and!; auto].
  destruct (CropEngine.dragMode en) as [mode|] eqn:Hm;
    [|cbn; split_and!; auto].
  destruct (CropEngine.dragStart en) as [ds|] eqn:Hs;
    [|cbn; split_and!; auto].
  destruct mode; cbn; split_and!; eauto.
Qed.

Lemma handleMouseDown_frame (en : CropEngine.t) (e : CropEngine.MouseEvent) :
  let en' := CropEngine.handleMouseDown en e in
  CropEngine.image en' = CropEngine.image en /\
  CropEngine.canvas en' = CropEngine.canvas en /\
  CropEngine.cropRect en' = CropEngine.cropRect en /\
  CropEngine.view en' = CropEngine.view en.
Proof.
  unfold CropEngine.handleMouseDown.
  destruct (CropEngine.image en) as [img|] eqn:Hi; [|split_and!; auto].
  destruct (CropEngine.cropRect en) as [r|] eqn:Hr; split_and!; auto.
Qed.

Lemma handleWheel_frame (en : CropEngine.t) (e : CropEngine.WheelEvent) :
  let en' := CropEngine.handleWheel en e in
  CropEngine.image en' = CropEngine.image en /\
  CropEngine.canvas en' = CropEngine.canvas en /\
  CropEngine.cropRect en' = CropEngine.cropRect en.
Proof.
  unfold CropEngine.handleWheel.
  destruct (CropEngine.image en) as [img|] eqn:Hi; split_and!; auto.
Qed.

Lemma handleWheel_zoom_stays_in_range
    (en : CropEngine.t) (e : CropEngine.WheelEvent) :
  0.1 <= CropEngine.zoom (CropEngine.view en) <= 10 ->
  0.1 <= CropEngine.zoom (CropEngine.view (CropEngine.handleWheel en e)) <= 10.
Proof.
  intros H. unfold CropEngine.handleWheel.
  destruct (CropEngine.image en) as [img|] eqn:Hi; [|exact H].
  cbn [CropEngine.view CropEngine.set_view CropEngine.zoom].
  split_minmax; split; lra.
Qed.

Lemma onCropChange_frame (rects : list CropRect.t) (a : AppState.t) :
  AppState.presets (onCropChange a rects) = AppState.presets a.
Proof.
  revert a. induction rects as [|r rects IH]; intros a; [reflexivity|].
  unfold onCropChange in *. cbn [foldl]. rewrite IH. reflexivity.
Qed.

Lemma step_presets_in_sync (s : UIController.t) (ev : Event) :
  Reachable.presets_in_sync s -> Reachable.presets_in_sync (step s ev).
Proof.
  unfold Reachable.presets_in_sync. intros H.
  destruct ev; cbn [step]; unfold onImageLoaded;
    repeat match goal with
    | |- context [match ?x with _ => _ end] => destruct x
    end;
    cbn [appState presetManager]; rewrite ?onCropChange_frame;
    first [exact H | reflexivity].
Qed.

Lemma step_engine_in_sync (s : UIController.t) (ev : Event) :
  Reachable.engine_in_sync s -> Reachable.engine_in_sync (step s ev).
Proof.
  unfold Reachable.engine_in_sync. intros H.
  destruct ev; cbn [step].
  - unfold onImageLoaded. cbn. split_and!; reflexivity.
  - destruct (AppState.originalImage (appState s)) eqn:Hi;
      destruct (cropEngine s) as [en|] eqn:He; rewrite ?He, ?Hi;
      try exact H.
    cbn. destruct H as (H1 & H2 & _). split_and!; congruence.
  - destruct (cropEngine s) as [en|]; cbn; [|exact H].
    destruct H as (H1 & H2 & _). split_and!; congruence.
  - destruct (cropEngine s) as [en|]; cbn; [|exact H].
    destruct H as (H1 & H2 & H3).
    destruct (handleMouseDown_frame en e) as (F1 & F2 & F3 & _).
    split_and!; congruence.
  - destruct (cropEngine s) as [en|] eqn:He; [|rewrite He; exact H].
    destruct H as (H1 & H2 & H3).
    pose proof (handleMouseMove_frame en e) as (F1 & F2 & _ & F4).
    destruct (CropEngine.handleMouseMove en e) as [en' rects].
    cbn [fst snd] in *. cbn [cropEngine appState canvasEl].
    rewrite onCropChange_originalImage.
    split_and!; [|congruence|congruence].
    destruct F4 as [[-> F4] | (r' & -> & F4)]; cbn; congruence.
  - destruct (cropEngine s) as [en|]; cbn; [|exact H]. exact H.
  - destruct (cropEngine s) as [en|]; cbn; [|exact H].
    destruct H as (H1 & H2 & H3).
    destruct (handleWheel_frame en e) as (F1 & F2 & F3).
    split_and!; congruence.
  - exact H.
  - exact H.
  - exact H.
  - exact H.
  - exact H.
Qed.

Lemma step_zoom_in_range (s : UIController.t) (ev : Event) :
  Reachable.zoom_in_range s -> Reachable.zoom_in_range (step s ev).
Proof.
  unfold Reachable.zoom_in_range. intros H.
  destruct ev; cbn [step]; try exact H.
  - unfold onImageLoaded. cbn. intros en [= <-]. cbn. split; by_computation.
  - destruct (AppState.originalImage (appState s));
      destruct (cropEngine s) as [en|] eqn:He; rewrite ?He; try exact H.
    cbn. intros en' [= <-]. apply (H en eq_refl).
  - destruct (cropEngine s) as [en|]; cbn; [|intros ? [=]].
    intros en' [= <-]. apply (H en eq_refl).
  - destruct (cropEngine s) as [en|]; cbn; [|intros ? [=]].
    intros en' [= <-].
    destruct (handleMouseDown_frame en e) as (_ & _ & _ & ->).
    apply (H en eq_refl).
  - destruct (cropEngine s) as [en|] eqn:He; [|rewrite He; exact H].
    pose proof (handleMouseMove_frame en e) as (_ & _ & F3 & _).
    destruct (CropEngine.handleMouseMove en e) as [en' rects].
    cbn [fst] in F3. cbn. intros en'' [= <-]. rewrite F3.
    apply (H en eq_refl).
  - destruct (cropEngine s) as [en|]; cbn; [|intros ? [=]].
    intros en' [= <-]. apply (H en eq_refl).
  - destruct (cropEngine s) as [en|]; cbn; [|intros ? [=]].
    intros en' [= <-]. apply handleWheel_zoom_stays_in_range.
    apply (H en eq_refl).
Qed.

Lemma run_invariant (P : UIController.t -> Prop) :
  (forall s ev, P s -> P (step s ev)) ->
  forall evs s, P s -> P (run s evs).
Proof.
  intros Hstep evs. induction evs as [|ev evs IH]; intros s H; [exact H|].
  unfold run in *. cbn [foldl]. apply IH. apply Hstep. exact H.
Qed.

End ReachableStates.

(** X25. In every state the application reaches from its start by any
    sequence of events, the application state and the crop engine hold
    the same image and the same crop rectangle and share the canvas
    (without an engine there is neither image nor crop), and the presets
    of the application state are those of the preset manager. *)
Theorem reachable_states_in_sync
    (stored : option PresetManager.Stored) (canvas : Canvas.t)
    (events : list UIController.Event) :
  let s := UIController.run (UIController.new stored canvas) events in
  Reachable.engine_in_sync s /\ Reachable.presets_in_sync s.
Proof.
  intros s. subst s. split.
  - apply (run_invariant Reachable.engine_in_sync step_engine_in_sync).
    split; reflexivity.
  - apply (run_invariant Reachable.presets_in_sync step_presets_in_sync).
    reflexivity.
Qed.

(** X26. In every state the application reaches, the zoom of the camera
    lies within [0.1, 10]. *)
Theorem reachable_zoom_in_range
    (stored : option PresetManager.Stored) (canvas : Canvas.t)
    (events : list UIController.Event) :
  Reachable.zoom_in_range
    (UIController.run (UIController.new stored canvas) events).
Proof.
  apply (run_invariant Reachable.zoom_in_range step_zoom_in_range).
  intros en H. discriminate H.
Qed.

(** X27. In every state the application reaches, an export request that
    invokes the batch processor passes it the image and the crop rectangle
    the crop engine holds, the presets the preset manager holds, and the
    format and quality of the application state. *)
Theorem export_uses_current_state
    (Blob : Type) (getContext : SizePreset.t -> bool)
    (drawAndEncode :
       Image.t -> CropRect.t -> SizePreset.t -> Format -> Q ->
       BatchProcessor.Settled (option Blob))
    (schedule :
       list (SizePreset.t * BatchProcessor.Settled (option Blob)) ->
       list (SizePreset.t * BatchProcessor.Settled (option Blob)))
    (stored : option PresetManager.Stored) (canvas : Canvas.t)
    (events : list UIController.Event) :
  let s := UIController.run (UIController.new stored canvas) events in
  forall image crop presets format quality result,
    UIController.Process Blob image crop presets format quality result
      ∈ UIController.handleDownload Blob getContext drawAndEncode schedule s ->
    (exists en,
       UIController.cropEngine s = Some en /\
       CropEngine.image en = Some image /\
       CropEngine.cropRect en = Some crop) /\
    presets = PresetManager.getPresets (UIController.presetManager s) /\
    format = AppState.outputFormat (UIController.appState s) /\
    quality = AppState.jpgQuality (UIController.appState s) /\
    result
    = BatchProcessor.process Blob getContext drawAndEncode schedule image
        crop presets format quality.
Proof.
  intros s image crop presets format quality result Hin.
  assert (Hen : Reachable.engine_in_sync s) by (apply (run_invariant Reachable.engine_in_sync step_engine_in_sync); split; reflexivity).
  assert (Hps : Reachable.presets_in_sync s) by (apply (run_invariant Reachable.presets_in_sync step_presets_in_sync); reflexivity).

  unfold Reachable.engine_in_sync in Hen.
  unfold Reachable.presets_in_sync in Hps.
  unfold UIController.handleDownload in Hin.
  destruct (AppState.originalImage (UIController.appState s)) as [img|] eqn:Hi.
  - destruct (AppState.cropRect (UIController.appState s)) as [r|] eqn:Hr.
    + assert (Hcall :
        UIController.Process Blob image crop presets format quality result
        = UIController.Process Blob img r
            (AppState.presets (UIController.appState s))
            (AppState.outputFormat (UIController.appState s))
            (AppState.jpgQuality (UIController.appState s))
            (BatchProcessor.process Blob getContext drawAndEncode schedule
               img r (AppState.presets (UIController.appState s))
               (AppState.outputFormat (UIController.appState s))
               (AppState.jpgQuality (UIController.appState s)))).
      { destruct (BatchProcessor.is_rejected _) in Hin; cbn [app] in Hin;
          repeat (apply elem_of_cons in Hin as [Hin | Hin];
                  [try discriminate Hin|]);
          first [exact Hin | apply elem_of_nil in Hin; destruct Hin]. }
      injection Hcall as -> -> -> -> -> ->.
      split_and!; try reflexivity; [|exact Hps].
      destruct (UIController.cropEngine s) as [en|].
      * destruct Hen as (H1 & H2 & _). exists en.
        split_and!; [reflexivity | congruence | congruence].
      * destruct Hen as (H1 & _). congruence.
    + apply list_elem_of_singleton in Hin. discriminate Hin.
  - destruct (AppState.cropRect (UIController.appState s));
      apply list_elem_of_singleton in Hin; discriminate Hin.
Qed.

Lemma export_uses_current_state_witness :
  let s :=
    UIController.run (UIController.new None Samples.canvas)
      [UIController.ImageLoaded Samples.image (File.mk "image/png") 880 680;
       UIController.FormatClick png] in
  exists en crop,
    UIController.cropEngine s = Some en /\
    CropEngine.cropRect en = Some crop /\
    UIController.Process nat Samples.image crop
      PresetManager.getDefaultPresets png 0.9 BatchProcessor.Rejected
    ∈ UIController.handleDownload nat Samples.getContext
        Samples.drawAndEncode Samples.schedule s.
Proof.
  cbv zeta.
  assert (Hin :
    UIController.Process nat Samples.image
      (CropRect.mk ((2000 - Qmin 2000 1000 * 0.8) / 2)
         ((1000 - Qmin 2000 1000 * 0.8) / 2)
         (Qmin 2000 1000 * 0.8) (Qmin 2000 1000 * 0.8))
      PresetManager.getDefaultPresets png 0.9 BatchProcessor.Rejected
    ∈ UIController.handleDownload nat Samples.getContext
        Samples.drawAndEncode Samples.schedule
        (UIController.run (UIController.new None Samples.canvas)
           [UIController.ImageLoaded Samples.image (File.mk "image/png")
              880 680;
            UIController.FormatClick png])).
  { right. left. }
  destruct (export_uses_current_state nat Samples.getContext
              Samples.drawAndEncode Samples.schedule None Samples.canvas
              [UIController.ImageLoaded Samples.image (File.mk "image/png")
                 880 680;
               UIController.FormatClick png]
              _ _ _ _ _ _ Hin)
    as ((en & He & _ & Hc) & _).
  exists en. eexists. split; [exact He|]. split; [exact Hc | exact Hin].
Defined.

(** X28. An export request made with an image and a crop rectangle: the
    button is made busy first and restored last, whatever happens in
    between; the alert 'Error processing images' is shown exactly when the
    generation of some preset of the application state raises; and the
    alert of the refusal is not shown. *)
Theorem download_alerts_iff_some_raise
    (Blob : Type) (getContext : SizePreset.t -> bool)
    (drawAndEncode :
       Image.t -> CropRect.t -> SizePreset.t -> Format -> Q ->
       BatchProcessor.Settled (option Blob))
    (schedule :
       list (SizePreset.t * BatchProcessor.Settled (option Blob)) ->
       list (SizePreset.t * BatchProcessor.Settled (option Blob)))
    (s : UIController.t) (image : Image.t) (crop : CropRect.t) :
  AppState.originalImage (UIController.appState s) = Some image ->
  AppState.cropRect (UIController.appState s) = Some crop ->
  let a := UIController.appState s in
  let trace :=
    UIController.handleDownload Blob getContext drawAndEncode schedule s in
  head trace = Some (UIController.ButtonBusy Blob) /\
  last trace = Some (UIController.ButtonRestored Blob) /\
  (UIController.Alert Blob "Error processing images" ∈ trace <->
   exists preset,
     preset ∈ AppState.presets a /\
     BatchProcessor.generateImage Blob getContext drawAndEncode image crop
       preset (AppState.outputFormat a) (AppState.jpgQuality a)
     = BatchProcessor.Rejected) /\
  UIController.Alert Blob "Please upload an image first." ∉ trace.
Proof.
  intros Hi Hc a trace. subst a trace.
  unfold UIController.handleDownload. rewrite Hi, Hc.
  rewrite <- (process_rejected_iff Blob getContext drawAndEncode schedule).
  destruct (BatchProcessor.process _ _ _ _ _ _ _ _ _) as [zip|] eqn:E;
    cbn [BatchProcessor.is_rejected app].
  - split_and!; [reflexivity | reflexivity | |].
    + split; [|intros H; discriminate H].
      intros H.
      repeat (apply elem_of_cons in H as [H | H]; [discriminate H|]).
      apply elem_of_nil in H. destruct H.
    + intros H.
      repeat (apply elem_of_cons in H as [H | H]; [discriminate H|]).
      apply elem_of_nil in H. destruct H.
  - split_and!; [reflexivity | reflexivity | |].
    + split; [reflexivity|]. intros _. do 3 right. left.
    + intros H.
      repeat (apply elem_of_cons in H as [H | H]; [discriminate H|]).
      apply elem_of_nil in H. destruct H.
Qed.

Lemma download_alerts_iff_some_raise_witness :
  let s :=
    UIController.run (UIController.new None Samples.canvas)
      [UIController.ImageLoaded Samples.image (File.mk "image/png") 880 680] in
  (AppState.originalImage (UIController.appState s) = Some Samples.image /\
   exists crop, AppState.cropRect (UIController.appState s) = Some crop) /\
  UIController.Alert nat "Error processing images"
  ∈ UIController.handleDownload nat Samples.getContext Samples.drawAndEncode
      Samples.schedule s.
Proof.
  cbv zeta. split; [split; [reflexivity | eexists; reflexivity]|].
  apply (proj1 (proj2 (proj2 (download_alerts_iff_some_raise nat
                                Samples.getContext Samples.drawAndEncode
                                Samples.schedule
                                (UIController.run
                                   (UIController.new None Samples.canvas)
                                   [UIController.ImageLoaded Samples.image
                                      (File.mk "image/png") 880 680])
                                Samples.image _ eq_refl eq_refl)))).
  exists Samples.square. split; [left | reflexivity].
Defined.
